(** * Rich-text rendering and sign-off extraction of apps/mail/lib/utils.ts

    A shallow embedding of [convertJSONToHTML] (the document renderer) and
    [createAIJsonContent] (the signature splitter), together with the part
    of the JavaScript run-time they rely on: strings of UTF-16 code units,
    the value universe of [any], [ToBoolean], [ToString], property lookup,
    the [String.prototype] helpers and the regular expressions of the file.
    The string helpers of the file follow: [cleanEmailAddress],
    [truncateFileName], [extractFilterValue], [createSectionId] and
    [getFileIcon]. *)

From Stdlib Require Import String Ascii DecimalString.
From Stdlib Require Import List NArith ZArith Bool Lia.
Local Open Scope string_scope.
Local Open Scope list_scope.
Local Open Scope nat_scope.
Import ListNotations.

Set Implicit Arguments.
Set Warnings "-register-all".

(** ** Strings *)

Module JsString.

(** A JavaScript string is a sequence of 16-bit code units. *)
Definition char16 := N.
Definition jsstring := list char16.

(** String literals of the source, written as Rocq strings. *)
Definition u16 (s : string) : jsstring :=
  map N_of_ascii (list_ascii_of_string s).

(** The double quote, U+0022, and the line feed, U+000A. *)
Definition dquote : jsstring := [34%N].
Definition LF : jsstring := [10%N].

Fixpoint eqb (a b : jsstring) : bool :=
  match a, b with
  | [], [] => true
  | x :: a', y :: b' => N.eqb x y && eqb a' b'
  | _, _ => false
  end.

(** [WhiteSpace] and [LineTerminator] code points: what [trim] strips and
    what the class escape [\s] matches. *)
Definition isWhiteSpace (c : char16) : bool :=
  ((9 <=? c) && (c <=? 13) || (c =? 32) || (c =? 160) || (c =? 5760)
   || (8192 <=? c) && (c <=? 8202) || (c =? 8232) || (c =? 8233)
   || (c =? 8239) || (c =? 8287) || (c =? 12288) || (c =? 65279))%N.

Fixpoint trimStart (s : jsstring) : jsstring :=
  match s with
  | c :: s' => if isWhiteSpace c then trimStart s' else s
  | [] => []
  end.

Definition trimEnd (s : jsstring) : jsstring := rev (trimStart (rev s)).

Definition trim (s : jsstring) : jsstring := trimEnd (trimStart s).

Fixpoint startsWith (s prefix : jsstring) : bool :=
  match prefix, s with
  | [], _ => true
  | p :: prefix', c :: s' => N.eqb c p && startsWith s' prefix'
  | _ :: _, [] => false
  end.

Definition endsWith (s suffix : jsstring) : bool :=
  startsWith (rev s) (rev suffix).

(** [s.substring(from, to)] for [0 <= from <= to]; [to] is clamped to the
    length as in the source. *)
Definition substring (s : jsstring) (from to : nat) : jsstring :=
  firstn (to - from) (skipn from s).

Definition substringFrom (s : jsstring) (from : nat) : jsstring :=
  skipn from s.

(** [s.lastIndexOf(needle)]: the greatest index at which [needle] occurs,
    or -1. *)
Fixpoint lastIndexOf_from (s needle : jsstring) (i : nat) : Z :=
  if startsWith (skipn i s) needle then Z.of_nat i
  else match i with
       | O => (-1)%Z
       | S i' => lastIndexOf_from s needle i'
       end.

Definition lastIndexOf (s needle : jsstring) : Z :=
  lastIndexOf_from s needle (length s).

(** [s.split(sep)] for a one-unit separator string. *)
Fixpoint split_unit (sep : char16) (s : jsstring) : list jsstring :=
  match s with
  | [] => [[]]
  | c :: s' =>
      if N.eqb c sep then [] :: split_unit sep s'
      else match split_unit sep s' with
           | piece :: rest => (c :: piece) :: rest
           | [] => [[c]]
           end
  end.

(** [pieces.join(sep)] on an array of strings. *)
Fixpoint join (sep : jsstring) (pieces : list jsstring) : jsstring :=
  match pieces with
  | [] => []
  | [p] => p
  | p :: rest => p ++ sep ++ join sep rest
  end.

End JsString.
Import JsString.

(** ** Values of type [any] *)

(** The Number values, which are the IEEE 754 doubles. [Finite z] is the
    number an integer [z] denotes and [Ratio num den] the number the
    rational [num / den] denotes: the double nearest to it, a tie going to
    the even significand, which is an infinity past the largest double and
    a zero below half the smallest. Every finite double is a rational, so
    every Number value is covered. The code under study only tests numbers
    for truthiness and prints them. *)
Inductive number : Type :=
| Finite (z : Z)
| NaN
| NegZero
| Infinity (negative : bool)
| Ratio (num : Z) (den : positive).

(** Plain data: primitives, arrays and plain objects. An object is the
    list of its own enumerable properties in enumeration order (the order
    of [Object.values]); its prototype is [Object.prototype]. Functions,
    symbols and bigints are outside the model, and values are finite
    trees. *)
Inductive value : Type :=
| JUndefined
| JNull
| JBool (b : bool)
| JNumber (n : number)
| JString (s : jsstring)
| JArray (items : list value)
| JObject (props : list (jsstring * value)).

(** The only exception the modelled code can raise. *)
Inductive error : Type := TypeError.

Inductive completion (A : Type) : Type :=
| Normal (a : A)
| Throw (e : error).
Arguments Normal {A} a.
Arguments Throw {A} e.

Definition bind {A B} (c : completion A) (k : A -> completion B) : completion B :=
  match c with
  | Normal a => k a
  | Throw e => Throw e
  end.

Notation "x <- c ;; k" := (bind c (fun x => k))
  (at level 61, c at next level, right associativity).

(** [items.map(f)] for an [f] that may throw: the first exception wins. *)
Definition mapM {A B} (f : A -> completion B) : list A -> completion (list B) :=
  fix go (l : list A) : completion (list B) :=
    match l with
    | [] => Normal []
    | a :: l' => b <- f a ;; bs <- go l' ;; Normal (b :: bs)
    end.

Module Js.

(** The decimal digits of an integer [a >= 0]. *)
Definition decimalDigits (a : Z) : jsstring :=
  u16 (NilZero.string_of_int (Z.to_int a)).

(** [base ^ k] for [k >= 0], and 1 for a negative [k]: a power
    [base ^ k] of either sign is [scale base k / scale base (- k)]. *)
Definition scale (base k : Z) : Z := (base ^ Z.max 0 k)%Z.

(** The largest [l] with [2 ^ l <= a / b], for [a, b > 0]. *)
Definition log2Ratio (a b : Z) : Z :=
  let g := (Z.log2 a - Z.log2 b)%Z in
  if (b * scale 2 g <=? a * scale 2 (- g))%Z then g else (g - 1)%Z.

(** The largest [l] with [10 ^ l <= a / b], for [a, b > 0]. *)
Definition log10Ratio (a b : Z) : Z :=
  let g := (Z.of_nat (length (decimalDigits a))
            - Z.of_nat (length (decimalDigits b)))%Z in
  if (b * scale 10 g <=? a * scale 10 (- g))%Z then g else (g - 1)%Z.

(** The double nearest to the rational [a / b >= 0], as the pair
    [(m, t)] that stands for [m / 2 ^ t]: [a / b] is rounded to a
    multiple of [2 ^ e], where [e] leaves 53 significant bits and is at
    least -1074 (the subnormal range), a tie going to the even multiple;
    [None] when the rounded value reaches 2^1024, where the number is
    Infinity. *)
Definition nearestDouble (a b : Z) : option (Z * Z) :=
  if (a =? 0)%Z then Some (0, 0)%Z
  else
    let e := Z.max (log2Ratio a b - 52) (-1074) in
    let n := (a * scale 2 (- e))%Z in
    let d := (b * scale 2 e)%Z in
    let '(q, r) := Z.div_eucl n d in
    let q' := if (d <? 2 * r)%Z || ((2 * r =? d)%Z && Z.odd q)
              then (q + 1)%Z else q in
    if (2 ^ 1024 <=? q' * scale 2 e)%Z then None
    else Some (q' * scale 2 e, Z.max 0 (- e))%Z.

(** The decimal [s * 10 ^ j] denotes the double [m / 2 ^ t]. *)
Definition readsBack (s j m t : Z) : bool :=
  match nearestDouble (s * scale 10 j) (scale 10 (- j)) with
  | Some (m', t') => (m' * 2 ^ t =? m * 2 ^ t')%Z
  | None => false
  end.

(** Number::toString step 5 for the double [m / 2 ^ t > 0]: the decimal
    [s * 10 ^ j] with the fewest significant digits that still denotes
    it, the one nearest to it when two have that many digits, the even
    one on a tie. The scales [j] are tried from [fuel - t] down to [- t],
    where the double is its own decimal expansion. *)
Fixpoint shortestDecimal (m t : Z) (fuel : nat) : Z * Z :=
  match fuel with
  | O => (m * 5 ^ t, - t)%Z
  | S fuel' =>
      let j := (Z.of_nat fuel - t)%Z in
      let low := ((m * scale 10 (- j)) / (2 ^ t * scale 10 j))%Z in
      let high := (low + 1)%Z in
      match readsBack low j m t, readsBack high j m t with
      | true, true =>
          match (2 * m * scale 10 (- j)
                 ?= (low + high) * scale 10 j * 2 ^ t)%Z with
          | Lt => (low, j)
          | Gt => (high, j)
          | Eq => if Z.even low then (low, j) else (high, j)
          end
      | true, false => (low, j)
      | false, true => (high, j)
      | false, false => shortestDecimal m t fuel'
      end
  end.

Fixpoint dropTrailingZeros (s : jsstring) : jsstring :=
  match s with
  | [] => []
  | c :: r =>
      match dropTrailingZeros r with
      | [] => if N.eqb c 48 then [] else [c]
      | r' => c :: r'
      end
  end.

(** Number::toString steps 6 to 10, for the [k] significant [digits] of
    a decimal with [n] digits before the point. *)
Definition formatDecimal (digits : jsstring) (n : Z) : jsstring :=
  let k := Z.of_nat (length digits) in
  if ((k <=? n) && (n <=? 21))%Z then
    digits ++ repeat 48%N (Z.to_nat (n - k))
  else if ((0 <? n) && (n <=? 21))%Z then
    firstn (Z.to_nat n) digits ++ u16 "." ++ skipn (Z.to_nat n) digits
  else if ((-6 <? n) && (n <=? 0))%Z then
    u16 "0." ++ repeat 48%N (Z.to_nat (- n)) ++ digits
  else
    let exponent :=
      (if (0 <? n)%Z then u16 "e+" else u16 "e-")
        ++ decimalDigits (Z.abs (n - 1)) in
    match digits with
    | [] => exponent
    | d :: [] => d :: exponent
    | d :: rest => d :: u16 "." ++ rest ++ exponent
    end.

(** Number::toString for the double nearest to [a / b > 0]. *)
Definition positiveToString (a b : Z) : jsstring :=
  match nearestDouble a b with
  | None => u16 "Infinity"
  | Some (m, t) =>
      if (m =? 0)%Z then u16 "0"
      else
        let first := log10Ratio m (2 ^ t) in
        let '(s, j) := shortestDecimal m t (Z.to_nat (first + t)) in
        formatDecimal (dropTrailingZeros (decimalDigits s))
                      (Z.of_nat (length (decimalDigits s)) + j)
  end.

(** The double nearest to [a / b >= 0] is zero. *)
Definition roundsToZero (a b : Z) : bool :=
  match nearestDouble a b with
  | Some (m, _) => (m =? 0)%Z
  | None => false
  end.

(** Number::toString for the double nearest to [a / b], [b > 0]. *)
Definition rationalToString (a b : Z) : jsstring :=
  if roundsToZero (Z.abs a) b then u16 "0"
  else if (a <? 0)%Z then u16 "-" ++ positiveToString (- a) b
  else positiveToString a b.

Definition Number_toString (n : number) : jsstring :=
  match n with
  | Finite z => rationalToString z 1
  | NaN => u16 "NaN"
  | NegZero => u16 "0"
  | Infinity false => u16 "Infinity"
  | Infinity true => u16 "-Infinity"
  | Ratio num den => rationalToString num (Z.pos den)
  end.

Definition Boolean_toString (b : bool) : jsstring :=
  if b then u16 "true" else u16 "false".

(** [ToBoolean]: what [!json], [json.bold], [json.children], [a || b]
    test. *)
Definition ToBoolean (v : value) : bool :=
  match v with
  | JUndefined | JNull => false
  | JBool b => b
  | JNumber (Finite z) => negb (Z.eqb z 0)
  | JNumber NaN | JNumber NegZero => false
  | JNumber (Infinity _) => true
  | JNumber (Ratio num den) => negb (roundsToZero (Z.abs num) (Z.pos den))
  | JString s => negb (Nat.eqb (length s) 0)
  | JArray _ | JObject _ => true
  end.

(** [a || b] *)
Definition or_else (a b : value) : value := if ToBoolean a then a else b.

(** [obj.key] on a plain object whose prototype chain has no [key]. *)
Fixpoint get (key : jsstring) (props : list (jsstring * value)) : value :=
  match props with
  | [] => JUndefined
  | (k, v) :: props' => if JsString.eqb k key then v else get key props'
  end.

Fixpoint hasOwn (key : jsstring) (props : list (jsstring * value)) : bool :=
  match props with
  | [] => false
  | (k, _) :: props' => JsString.eqb k key || hasOwn key props'
  end.

(** [Object.values(obj)] *)
Definition values (props : list (jsstring * value)) : list value :=
  map snd props.

(** [ToString], as applied by template literals and by [join]. An array
    prints as its elements joined by commas, [null] and [undefined]
    elements printing as nothing. A plain object prints through
    [Object.prototype.toString], unless an own data property named
    [toString] shadows it: that property is not callable, neither is
    what [valueOf] leads to, and [OrdinaryToPrimitive] throws. *)
Fixpoint ToString (v : value) : completion jsstring :=
  match v with
  | JUndefined => Normal (u16 "undefined")
  | JNull => Normal (u16 "null")
  | JBool b => Normal (Boolean_toString b)
  | JNumber n => Normal (Number_toString n)
  | JString s => Normal s
  | JArray items =>
      pieces <- mapM (fun item =>
                        match item with
                        | JUndefined | JNull => Normal []
                        | _ => ToString item
                        end) items ;;
      Normal (join (u16 ",") pieces)
  | JObject props =>
      if hasOwn (u16 "toString") props then Throw TypeError
      else Normal (u16 "[object Object]")
  end.

(** [array.join('')] on an array of arbitrary values. *)
Definition join_values (sep : jsstring) (items : list value) : completion jsstring :=
  pieces <- mapM (fun item =>
                    match item with
                    | JUndefined | JNull => Normal []
                    | _ => ToString item
                    end) items ;;
  Normal (join sep pieces).

(** [x === 'literal'] *)
Definition strict_eq_string (v : value) (s : jsstring) : bool :=
  match v with
  | JString t => JsString.eqb t s
  | _ => false
  end.

End Js.
Import Js.

(** ** The document renderer *)

Module Renderer.

(** [f(json.key)] computed along the property list; [d] stands for
    [f(undefined)], the result when the property is absent. *)
Definition with_prop {A} (f : value -> A) (d : A) (key : jsstring)
  : list (jsstring * value) -> A :=
  fix go (props : list (jsstring * value)) : A :=
    match props with
    | [] => d
    | (k, v) :: props' => if JsString.eqb k key then f v else go props'
    end.

(** A template literal: [head] followed by substitutions, each with the
    literal text after it. Every substitution is evaluated and converted
    with [ToString] before the next one is looked at. *)
Fixpoint template (head : jsstring) (parts : list (completion value * jsstring))
  : completion jsstring :=
  match parts with
  | [] => Normal head
  | (e, after) :: rest =>
      v <- e ;;
      s <- ToString v ;;
      r <- template after rest ;;
      Normal (head ++ s ++ r)
  end.

Definition template_value head parts : completion value :=
  s <- template head parts ;; Normal (JString s).

(** [json.type?.startsWith(prefix)], as a condition. A missing or null
    [type] short-circuits to [undefined]; a string answers; any other
    value has no [startsWith] method, and calling it throws. *)
Definition optional_startsWith (type : value) (prefix : jsstring) : completion bool :=
  match type with
  | JUndefined | JNull => Normal false
  | JString s => Normal (startsWith s prefix)
  | _ => Throw TypeError
  end.

(** [json.type.split('-')[1]] for a string [type]. *)
Definition heading_level (type : value) : value :=
  match type with
  | JString s =>
      match nth_error (split_unit 45%N s) 1 with
      | Some level => JString level
      | None => JUndefined
      end
  | _ => JUndefined
  end.

Fixpoint convertJSONToHTML (json : value) : completion value :=
  if negb (ToBoolean json) then Normal (JString [])
  else
    match json with
    | JString _ => Normal json
    | JNumber n => Normal (JString (Number_toString n))
    | JBool b => Normal (JString (Boolean_toString b))
    | JNull | JUndefined => Normal (JString [])
    | JArray items =>
        rendered <- mapM convertJSONToHTML items ;;
        s <- join_values [] rendered ;;
        Normal (JString s)
    | JObject props =>
        let type := get (u16 "type") props in
        let children : completion value :=
          with_prop convertJSONToHTML (Normal (JString [])) (u16 "children") props in
        if strict_eq_string type (u16 "text") then
          let text := or_else (get (u16 "text") props) (JString []) in
          text <- (if ToBoolean (get (u16 "bold") props)
                   then template_value (u16 "<strong>") [(Normal text, u16 "</strong>")]
                   else Normal text) ;;
          text <- (if ToBoolean (get (u16 "italic") props)
                   then template_value (u16 "<em>") [(Normal text, u16 "</em>")]
                   else Normal text) ;;
          text <- (if ToBoolean (get (u16 "underline") props)
                   then template_value (u16 "<u>") [(Normal text, u16 "</u>")]
                   else Normal text) ;;
          text <- (if ToBoolean (get (u16 "code") props)
                   then template_value (u16 "<code>") [(Normal text, u16 "</code>")]
                   else Normal text) ;;
          Normal text
        else if strict_eq_string type (u16 "paragraph") then
          template_value (u16 "<p>") [(children, u16 "</p>")]
        else
          isHeading <- optional_startsWith type (u16 "heading-") ;;
          if isHeading then
            let level := heading_level type in
            template_value (u16 "<h")
              [(Normal level, u16 ">"); (children, u16 "</h"); (Normal level, u16 ">")]
          else if strict_eq_string type (u16 "bulleted-list") then
            template_value (u16 "<ul>") [(children, u16 "</ul>")]
          else if strict_eq_string type (u16 "numbered-list") then
            template_value (u16 "<ol>") [(children, u16 "</ol>")]
          else if strict_eq_string type (u16 "list-item") then
            template_value (u16 "<li>") [(children, u16 "</li>")]
          else if strict_eq_string type (u16 "link") then
            template_value (u16 "<a href=" ++ dquote)
              [(Normal (get (u16 "url") props), dquote ++ u16 ">"); (children, u16 "</a>")]
          else if strict_eq_string type (u16 "image") then
            template_value (u16 "<img src=" ++ dquote)
              [(Normal (get (u16 "url") props), dquote ++ u16 " alt=" ++ dquote);
               (Normal (or_else (get (u16 "alt") props) (JString [])), dquote ++ u16 " />")]
          else if strict_eq_string type (u16 "block-quote") then
            template_value (u16 "<blockquote>") [(children, u16 "</blockquote>")]
          else if strict_eq_string type (u16 "code-block") then
            template_value (u16 "<pre><code>") [(children, u16 "</code></pre>")]
          else if ToBoolean (get (u16 "children") props) then
            children
          else
            rendered <- mapM (fun kv => convertJSONToHTML (snd kv)) props ;;
            s <- join_values [] rendered ;;
            Normal (JString s)
    end.

End Renderer.
Import Renderer.


(** ** Regular expressions *)

Module Regex.

(** The fragment of the pattern language the source uses. Capture groups
    are left out: the source reads only [match[0]] and splits on
    patterns without groups. *)
Inductive regex : Type :=
| Empty
| Char (p : char16 -> bool)
| Seq (r1 r2 : regex)
| Alt (r1 r2 : regex)
| Star (r : regex)
| WordBoundary
| EndOfInput.

Definition Plus (r : regex) : regex := Seq r (Star r).
Definition Opt (r : regex) : regex := Alt r Empty.

Fixpoint seqs (rs : list regex) : regex :=
  match rs with
  | [] => Empty
  | [r] => r
  | r :: rs' => Seq r (seqs rs')
  end.

Fixpoint alts (r : regex) (rs : list regex) : regex :=
  match rs with
  | [] => r
  | r' :: rs' => Alt r (alts r' rs')
  end.

Definition isAsciiUpper (c : char16) : bool := ((65 <=? c) && (c <=? 90))%N.
Definition isAsciiLower (c : char16) : bool := ((97 <=? c) && (c <=? 122))%N.
Definition isAsciiLetter (c : char16) : bool := isAsciiUpper c || isAsciiLower c.
Definition isDigit (c : char16) : bool := ((48 <=? c) && (c <=? 57))%N.

(** The characters [\b] counts as word characters. *)
Definition isWordChar (c : char16) : bool :=
  isAsciiLetter c || isDigit c || (c =? 95)%N.

(** Case folding of the [i] flag without the [u] flag: [Canonicalize]
    upper-cases, but never maps a code unit above 127 to one below 128,
    so an ASCII letter of the pattern matches exactly its two cases. *)
Definition canonicalize_ascii (c : char16) : char16 :=
  if isAsciiLower c then (c - 32)%N else c.

Definition lit_i (a : ascii) : regex :=
  Char (fun c => N.eqb (canonicalize_ascii c) (canonicalize_ascii (N_of_ascii a))).

(** A literal phrase under the [i] flag. *)
Definition phrase_i (s : string) : regex :=
  seqs (map lit_i (list_ascii_of_string s)).

Definition newline : regex := Char (fun c => N.eqb c 10).
Definition space : regex := Char isWhiteSpace.

Section Matcher.

Variable input : jsstring.

Definition wordAt (i : nat) : bool :=
  match nth_error input i with
  | Some c => isWordChar c
  | None => false
  end.

Definition atWordBoundary (i : nat) : bool :=
  xorb (match i with O => false | S i' => wordAt i' end) (wordAt i).

(** Backtracking matcher in continuation-passing style: [run r k i]
    matches [r] at index [i] and hands the end index to [k]; a
    failing continuation makes the matcher try its next choice. The
    star is greedy and refuses an iteration that consumes nothing. *)
Fixpoint run (r : regex) (k : nat -> option nat) (i : nat) : option nat :=
  match r with
  | Empty => k i
  | Char p =>
      match nth_error input i with
      | Some c => if p c then k (S i) else None
      | None => None
      end
  | Seq r1 r2 => run r1 (run r2 k) i
  | Alt r1 r2 =>
      match run r1 k i with
      | Some e => Some e
      | None => run r2 k i
      end
  | Star r1 =>
      (fix loop (fuel : nat) (i : nat) : option nat :=
         match fuel with
         | O => k i
         | S fuel' =>
             match run r1 (fun j => if i <? j then loop fuel' j else None) i with
             | Some e => Some e
             | None => k i
             end
         end) (S (length input - i)) i
  | WordBoundary => if atWordBoundary i then k i else None
  | EndOfInput => if i =? length input then k i else None
  end.

(** A match attempt anchored at index [i]: the end index. *)
Definition matchAt (r : regex) (i : nat) : option nat := run r Some i.

Record MatchResult : Type := { index : nat; endIndex : nat }.

(** [match[0]] *)
Definition matched (m : MatchResult) : jsstring :=
  substring input (index m) (endIndex m).

Fixpoint search (r : regex) (fuel i : nat) : option MatchResult :=
  match matchAt r i with
  | Some e => Some {| index := i; endIndex := e |}
  | None =>
      match fuel with
      | O => None
      | S fuel' => search r fuel' (S i)
      end
  end.

(** [input.match(r)] for a pattern without the [g] flag: the match at
    the least start index. *)
Definition String_match (r : regex) : option MatchResult :=
  search r (length input) 0.

(** The loop of [RegExp.prototype[Symbol.split]]: [p] is the start of
    the piece being collected, [q] the index where a separator is
    tried next. *)
Fixpoint split_loop (r : regex) (fuel p q : nat) : list jsstring :=
  match fuel with
  | O => [substring input p (length input)]
  | S fuel' =>
      if length input <=? q then [substring input p (length input)]
      else
        match matchAt r q with
        | None => split_loop r fuel' p (S q)
        | Some e =>
            let e := Nat.min e (length input) in
            if e =? p then split_loop r fuel' p (S q)
            else substring input p q :: split_loop r fuel' e e
        end
  end.

(** [input.split(r)] *)
Definition String_split (r : regex) : list jsstring :=
  if length input =? 0 then
    match matchAt r 0 with
    | Some _ => []
    | None => [input]
    end
  else split_loop r (2 * length input + 1) 0 0.

End Matcher.

End Regex.
Import Regex.

(** ** The signature splitter *)

Module Splitter.

(** The single sign-off pattern, with the [i] flag: a word boundary, one
    of the twelve closing phrases, an optional comma, [\s*], [\n+],
    [\s*], a letter, then letters, white space and periods up to the end
    of the text ([$] without the [m] flag). *)
Definition signOffPattern : regex :=
  seqs
    [ WordBoundary;
      alts (phrase_i "Best regards")
        [ phrase_i "Regards"; phrase_i "Sincerely"; phrase_i "Thanks";
          phrase_i "Thank you"; phrase_i "Cheers"; phrase_i "Best";
          phrase_i "All the best"; phrase_i "Yours truly";
          phrase_i "Yours sincerely"; phrase_i "Kind regards";
          phrase_i "Cordially" ];
      Opt (lit_i ","%char);
      Star space;
      Plus newline;
      Star space;
      Char isAsciiLetter;
      Star (Char (fun c => isAsciiLetter c || isWhiteSpace c || N.eqb c 46));
      EndOfInput ].

Definition signOffPatterns : list regex := [signOffPattern].

(** [/\n+/] *)
Definition newlines : regex := Plus newline.

(** [/\n\s*\n/] *)
Definition blankLine : regex := seqs [newline; Star space; newline].

(** [.filter(Boolean)] on strings *)
Definition nonEmpty (s : jsstring) : bool := negb (length s =? 0).

(** The two variables the detection passes assign. *)
Record Split : Type := { mainContent : jsstring; signatureLines : list jsstring }.

(** The [for (const pattern of signOffPatterns)] loop; a honoured match
    ends it ([break]). *)
Fixpoint extractSignOff (patterns : list regex) (text : jsstring) (st : Split) : Split :=
  match patterns with
  | [] => st
  | pattern :: patterns' =>
      match String_match text pattern with
      | Some m =>
          let signOffIndex := lastIndexOf text (matched text m) in
          if (0 <? signOffIndex)%Z then
            let signature := trim (substringFrom text (Z.to_nat signOffIndex)) in
            {| mainContent := trim (substring text 0 (Z.to_nat signOffIndex));
               signatureLines :=
                 filter nonEmpty (map trim (String_split signature newlines)) |}
          else extractSignOff patterns' text st
      | None => extractSignOff patterns' text st
      end
  end.

(** A line of the fallback pass may belong to a signature. *)
Definition qualifies (line : jsstring) : bool :=
  (length (trim line) <? 60)
  && negb (endsWith (trim line) (u16 "?"))
  && negb (endsWith (trim line) (u16 ".")).

(** [lines.slice(-n)] *)
Definition slice_last {A} (n : nat) (l : list A) : list A :=
  skipn (length l - n) l.

(** The second pass, run when the first left no signature lines. *)
Definition fallbackSignature (text : jsstring) (st : Split) : Split :=
  if length (signatureLines st) =? 0 then
    let allLines := String_split text newlines in
    if 1 <? length allLines then
      let potentialSigLines := filter qualifies (slice_last 3 allLines) in
      if 0 <? length potentialSigLines then
        {| mainContent :=
             trim (join LF
                     (firstn (length allLines - length potentialSigLines) allLines));
           signatureLines := potentialSigLines |}
      else st
    else st
  else st.

Definition detectSignature (text : jsstring) : Split :=
  fallbackSignature text
    (extractSignOff signOffPatterns text {| mainContent := text; signatureLines := [] |}).

(** [mainContent.split(/\n\s*\n/).map(trim).filter(Boolean)] *)
Definition splitParagraphs (mainContent : jsstring) : list jsstring :=
  filter nonEmpty (map trim (String_split mainContent blankLine)).

(** [{ type: 'paragraph', content: [{ type: 'text', text }] }] *)
Definition paragraphNode (text : jsstring) : value :=
  JObject
    [ (u16 "type", JString (u16 "paragraph"));
      (u16 "content",
        JArray [ JObject [ (u16 "type", JString (u16 "text"));
                           (u16 "text", JString text) ] ]) ].

(** [{ type: 'paragraph' }] *)
Definition spacerNode : value :=
  JObject [ (u16 "type", JString (u16 "paragraph")) ].

(** [paragraphs.forEach((paragraph, index) => ...)], pushing onto
    [content]; [count] is [paragraphs.length]. *)
Fixpoint pushParagraphs (paragraphs : list jsstring) (index count : nat)
  (content : list value) : list value :=
  match paragraphs with
  | [] => content
  | paragraph :: rest =>
      let content := content ++ [paragraphNode paragraph] in
      let content :=
        if index <? count - 1 then content ++ [spacerNode] else content in
      pushParagraphs rest (S index) count content
  end.

(** [signatureLines.forEach((line) => ...)] *)
Fixpoint pushSignature (lines : list jsstring) (content : list value) : list value :=
  match lines with
  | [] => content
  | line :: rest => pushSignature rest (content ++ [paragraphNode line])
  end.

(** Everything after the detection passes. *)
Definition buildDocument (text : jsstring) (st : Split) : value :=
  let paragraphs := splitParagraphs (mainContent st) in
  let paragraphs :=
    if (length paragraphs =? 0) && (length (signatureLines st) =? 0)
    then paragraphs ++ [text] else paragraphs in
  let content := pushParagraphs paragraphs 0 (length paragraphs) [] in
  let content :=
    if 0 <? length (signatureLines st) then
      let content := if 0 <? length paragraphs then content ++ [spacerNode] else content in
      pushSignature (signatureLines st) content
    else content in
  JObject [ (u16 "type", JString (u16 "doc")); (u16 "content", JArray content) ].

Definition createAIJsonContent (text : jsstring) : value :=
  buildDocument text (detectSignature text).

End Splitter.
Import Splitter.

(** ** Balanced markup *)

Module Html.

(** The elements the renderer can emit. A heading is [h] followed by its
    level; [img] is the one void element, written self-closed. *)
Definition pairedTags : list jsstring :=
  map u16 ["strong"; "em"; "u"; "code"; "p"; "ul"; "ol"; "li"; "a";
           "blockquote"; "pre"].

Definition isHeadingTag (name : jsstring) : bool :=
  match name with
  | 104%N :: level => negb (length level =? 0) && forallb isDigit level
  | _ => false
  end.

Definition isPairedTag (name : jsstring) : bool :=
  existsb (JsString.eqb name) pairedTags || isHeadingTag name.

(** The element name of a tag body: its text up to the first space. *)
Fixpoint tagName (body : jsstring) : jsstring :=
  match body with
  | [] => []
  | c :: body' => if N.eqb c 32 then [] else c :: tagName body'
  end.

(** The effect of one tag, given as the text between [<] and [>], on the
    stack of open elements; [None] when the tag is not allowed there. *)
Definition applyTag (body : jsstring) (open : list jsstring) : option (list jsstring) :=
  match body with
  | 47%N :: name =>
      match open with
      | top :: open' => if JsString.eqb top name then Some open' else None
      | [] => None
      end
  | _ =>
      if endsWith body (u16 "/") then
        if JsString.eqb (tagName body) (u16 "img") then Some open else None
      else if isPairedTag (tagName body) then Some (tagName body :: open)
      else None
  end.

(** Where the scan is: in text, or inside a tag whose body so far is
    kept in reverse. *)
Inductive scan : Type :=
| InText
| InTag (body : jsstring).

Fixpoint balancedFrom (html : jsstring) (open : list jsstring) (st : scan) : bool :=
  match html with
  | [] =>
      match st, open with
      | InText, [] => true
      | _, _ => false
      end
  | c :: html' =>
      match st with
      | InText =>
          if N.eqb c 60 then balancedFrom html' open (InTag [])
          else balancedFrom html' open InText
      | InTag body =>
          if N.eqb c 62 then
            match applyTag (rev body) open with
            | Some open' => balancedFrom html' open' InText
            | None => false
            end
          else balancedFrom html' open (InTag (c :: body))
      end
  end.

(** Every tag is one of the renderer's, every opening tag is closed by
    the matching closing tag in nesting order, and nothing stays open. *)
Definition balanced (html : jsstring) : bool := balancedFrom html [] InText.

End Html.
Import Html.

(** ** Vocabulary of the statements *)

(** [`<tag>${s}</tag>`] when the flag is set, [s] otherwise. *)
Definition wrap (flag : bool) (tag : string) (s : jsstring) : jsstring :=
  if flag then u16 "<" ++ u16 tag ++ u16 ">" ++ s ++ u16 "</" ++ u16 tag ++ u16 ">"
  else s.

(** Truthiness of a formatting flag of a node. *)
Definition flag (name : string) (props : list (jsstring * value)) : bool :=
  ToBoolean (get (u16 name) props).

(** The [type] values with a branch of their own; [heading-] types are
    recognised by prefix. *)
Definition recognizedTypes : list jsstring :=
  map u16 [ "text"; "paragraph"; "bulleted-list"; "numbered-list"; "list-item";
            "link"; "image"; "block-quote"; "code-block" ].

(** A [type] that is missing, null, or a string no branch recognises. *)
Definition unrecognizedType (type : value) : bool :=
  match type with
  | JUndefined | JNull => true
  | JString s =>
      negb (existsb (JsString.eqb s) recognizedTypes)
      && negb (startsWith s (u16 "heading-"))
  | _ => false
  end.

(** A node the splitter emits: a spacer or a paragraph around one text
    node. *)
Definition emitted (node : value) : Prop :=
  node = spacerNode \/ exists text, node = paragraphNode text.

(** [{ type: 'doc', content }] *)
Definition docNode (content : list value) : value :=
  JObject [ (u16 "type", JString (u16 "doc")); (u16 "content", JArray content) ].

Definition emptyParagraph : jsstring := u16 "<p></p>".

(** The state of the detection passes before the first one runs. *)
Definition initial (text : jsstring) : Split :=
  {| mainContent := text; signatureLines := [] |}.

(** [{ type: 'text', text: 'hi', bold: true, code: true }] *)
Definition boldCodeHi : list (jsstring * value) :=
  [ (u16 "type", JString (u16 "text")); (u16 "text", JString (u16 "hi"));
    (u16 "bold", JBool true); (u16 "code", JBool true) ].

(** [{ type: 5 }] *)
Definition numericType : value := JObject [ (u16 "type", JNumber (Finite 5)) ].

(** [{ children: '', extra: 'x' }] *)
Definition emptyChildren : list (jsstring * value) :=
  [ (u16 "children", JString []); (u16 "extra", JString (u16 "x")) ].

(** [{ type: 'custom', children: [{ type: 'text', text: 'x' }], extra: 'junk' }] *)
Definition customNode : list (jsstring * value) :=
  [ (u16 "type", JString (u16 "custom"));
    (u16 "children",
      JArray [ JObject [ (u16 "type", JString (u16 "text"));
                         (u16 "text", JString (u16 "x")) ] ]);
    (u16 "extra", JString (u16 "junk")) ].

(** ["Hello there.\n\nBest regards,\nJane Doe"] *)
Definition helloText : jsstring :=
  u16 "Hello there." ++ LF ++ LF ++ u16 "Best regards," ++ LF ++ u16 "Jane Doe".

(** ["Intro line one is here.\nAlice\nSee you soon.\nBob"] *)
Definition lostLineText : jsstring :=
  u16 "Intro line one is here." ++ LF ++ u16 "Alice" ++ LF
  ++ u16 "See you soon." ++ LF ++ u16 "Bob".

(** ["Thanks,\nBob"] *)
Definition thanksBob : jsstring := u16 "Thanks," ++ LF ++ u16 "Bob".

(** ** The other helpers of the file *)

Module Utils.

(** [s.includes(needle)] *)
Fixpoint includes (s needle : jsstring) : bool :=
  startsWith s needle
  || match s with
     | [] => false
     | _ :: s' => includes s' needle
     end.

(** [s.indexOf(needle)]: the least index at which [needle] occurs, or -1;
    [i] is the index of the head of [s] in the whole string. *)
Fixpoint indexOf_from (s needle : jsstring) (i : nat) : Z :=
  if startsWith s needle then Z.of_nat i
  else match s with
       | [] => (-1)%Z
       | _ :: s' => indexOf_from s' needle (S i)
       end.

Definition indexOf (s needle : jsstring) : Z := indexOf_from s needle 0.

(** A relative index of [slice]: negative indices count from the end, and
    the result is clamped to the string. *)
Definition relativeIndex (len : nat) (i : Z) : nat :=
  if (i <? 0)%Z then Z.to_nat (Z.max (Z.of_nat len + i) 0)
  else Nat.min (Z.to_nat i) len.

(** [s.slice(start, end)] for integer indices. *)
Definition slice (s : jsstring) (start stop : Z) : jsstring :=
  let from := relativeIndex (length s) start in
  let to := relativeIndex (length s) stop in
  firstn (to - from) (skipn from s).

(** [s.slice(start)] *)
Definition sliceFrom (s : jsstring) (start : Z) : jsstring :=
  skipn (relativeIndex (length s) start) s.

Section Replace.

Variable input : jsstring.

(** [input.replace(r, replacement)] for a pattern with the [g] flag and a
    replacement without [$]: the loop of [RegExp.prototype[Symbol.replace]]
    with its result assembled on the way. [next] is the first index not
    yet copied, [lastIndex] where the next search starts; an empty match
    moves [lastIndex] one further. *)
Fixpoint replace_loop (r : regex) (replacement : jsstring) (fuel next lastIndex : nat)
  : jsstring :=
  match fuel with
  | O => substringFrom input next
  | S fuel' =>
      if length input <? lastIndex then substringFrom input next
      else
        match search input r (length input - lastIndex) lastIndex with
        | None => substringFrom input next
        | Some m =>
            let position := index m in
            let lastIndex' :=
              if endIndex m =? position then S (endIndex m) else endIndex m in
            if next <=? position then
              substring input next position ++ replacement
              ++ replace_loop r replacement fuel' (endIndex m) lastIndex'
            else replace_loop r replacement fuel' next lastIndex'
        end
  end.

Definition String_replace_all (r : regex) (replacement : jsstring) : jsstring :=
  replace_loop r replacement (S (length input)) 0 0.

End Replace.

(** [/[<>]/g] *)
Definition angleBracket : regex := Char (fun c => N.eqb c 60 || N.eqb c 62).

(** [cleanEmailAddress(email = '')]; [None] is the omitted argument. *)
Definition cleanEmailAddress (email : option jsstring) : jsstring :=
  let email := match email with Some e => e | None => [] end in
  trim (String_replace_all email angleBracket []).

(** [truncateFileName(name, maxLength = 15)] for an integer [maxLength];
    [None] is the omitted argument. *)
Definition truncateFileName (name : jsstring) (maxLength : option Z) : jsstring :=
  let maxLength := match maxLength with Some m => m | None => 15%Z end in
  if (Z.of_nat (length name) <=? maxLength)%Z then name
  else
    let extIndex := lastIndexOf name (u16 ".") in
    if negb (extIndex =? -1)%Z && (Z.of_nat (length name) - extIndex <=? 5)%Z then
      slice name 0 (maxLength - 5) ++ u16 "..." ++ sliceFrom name extIndex
    else slice name 0 maxLength ++ u16 "...".

Definition extractFilterValue (filter : jsstring) : jsstring :=
  if negb (nonEmpty filter) || negb (includes filter (u16 ":")) then []
  else
    let colonIndex := indexOf filter (u16 ":") in
    let value := substringFrom filter (Z.to_nat (colonIndex + 1)) in
    if nonEmpty value then value else [].

Definition isLowerAlnum (c : char16) : bool := isAsciiLower c || isDigit c.

(** [/[^a-z0-9]+/g] *)
Definition nonAlnumRun : regex := Plus (Char (fun c => negb (isLowerAlnum c))).

Section SectionId.

(** [String.prototype.toLowerCase], which follows the Unicode case
    mappings, is taken as given. *)
Variable toLowerCase : jsstring -> jsstring.

Definition createSectionId (title : jsstring) : jsstring :=
  String_replace_all (toLowerCase title) nonAlnumRun (u16 "-").

End SectionId.

(** The four icons, each one code point above U+FFFF and so two code
    units: U+1F4C4, U+1F4CA, U+1F4DD and U+1F4CE. *)
Definition iconPdf : jsstring := [55357%N; 56516%N].
Definition iconSheet : jsstring := [55357%N; 56522%N].
Definition iconDocument : jsstring := [55357%N; 56541%N].
Definition iconDefault : jsstring := [55357%N; 56526%N].

Definition getFileIcon (mimeType : jsstring) : jsstring :=
  if JsString.eqb mimeType (u16 "application/pdf") then iconPdf
  else if JsString.eqb mimeType
            (u16 "application/vnd.openxmlformats-officedocument.spreadsheetml.sheet")
  then iconSheet
  else if JsString.eqb mimeType
            (u16 "application/vnd.openxmlformats-officedocument.wordprocessingml.document")
  then iconDocument
  else if includes mimeType (u16 "image") then []
  else iconDefault.

End Utils.
Import Utils.

(** ** Further vocabulary *)

(** The node types rendered as [open + render(children) + close]. *)
Definition wrappers : list (string * (string * string)) :=
  [ ("paragraph", ("<p>", "</p>"));
    ("bulleted-list", ("<ul>", "</ul>"));
    ("numbered-list", ("<ol>", "</ol>"));
    ("list-item", ("<li>", "</li>"));
    ("block-quote", ("<blockquote>", "</blockquote>"));
    ("code-block", ("<pre><code>", "</code></pre>")) ].

(** The text before the first hyphen. *)
Fixpoint upToHyphen (s : jsstring) : jsstring :=
  match s with
  | [] => []
  | c :: s' => if N.eqb c 45 then [] else c :: upToHyphen s'
  end.

(** Values on which neither [ToString] nor the heading test can throw:
    no object, at any depth, has an own [toString] property or a [type]
    that is neither missing, null nor a string. *)
Fixpoint safe (v : value) : bool :=
  match v with
  | JArray items => forallb safe items
  | JObject props =>
      negb (hasOwn (u16 "toString") props)
      && match get (u16 "type") props with
         | JUndefined | JNull | JString _ => true
         | _ => false
         end
      && forallb (fun kv => safe (snd kv)) props
  | _ => true
  end.

(** Text without [<], which opens no tag, and text without [>], which can
    stand inside a tag. *)
Definition plainText (s : jsstring) : bool := forallb (fun c => negb (N.eqb c 60)) s.
Definition attributeText (s : jsstring) : bool := forallb (fun c => negb (N.eqb c 62)) s.

Definition wrapperTypes : list jsstring := map (fun w => u16 (fst w)) wrappers.

(** Documents of the data model whose texts and addresses carry no markup
    of their own: text nodes with plain text, the wrapping elements,
    headings with a numeric level, links and images with addresses free of
    [>], and arrays of such nodes; missing children count as empty. *)
Fixpoint wellFormed (v : value) : bool :=
  match v with
  | JUndefined | JNull => true
  | JArray items => forallb wellFormed items
  | JObject props =>
      let children := with_prop wellFormed true (u16 "children") props in
      match get (u16 "type") props with
      | JString type =>
          if JsString.eqb type (u16 "text") then
            match get (u16 "text") props with
            | JString s => plainText s
            | JUndefined => true
            | _ => false
            end
          else if existsb (JsString.eqb type) wrapperTypes then children
          else if startsWith type (u16 "heading-") then
            isHeadingTag (104%N :: upToHyphen (skipn 8 type)) && children
          else if JsString.eqb type (u16 "link") then
            match get (u16 "url") props with
            | JString url => attributeText url && children
            | _ => false
            end
          else if JsString.eqb type (u16 "image") then
            match get (u16 "url") props, get (u16 "alt") props with
            | JString url, JString alt => attributeText url && attributeText alt
            | JString url, JUndefined => attributeText url
            | _, _ => false
            end
          else false
      | _ => false
      end
  | _ => false
  end.

(** Markup that leaves the scan where it found it: in text, with the same
    elements open. *)
Definition neutral (html : jsstring) : Prop :=
  forall rest open,
    balancedFrom (html ++ rest) open InText = balancedFrom rest open InText.

(** [sep] between every two neighbours of a list. *)
Fixpoint intersperse {A} (sep : A) (l : list A) : list A :=
  match l with
  | [] => []
  | [x] => [x]
  | x :: rest => x :: sep :: intersperse sep rest
  end.

(** The paragraphs the document is built from: those of the main content,
    or the raw text when there is neither paragraph nor signature. *)
Definition bodyParagraphs (text : jsstring) (st : Split) : list jsstring :=
  match splitParagraphs (mainContent st), signatureLines st with
  | [], [] => [text]
  | paragraphs, _ => paragraphs
  end.

(** A string [trim] leaves as it is. *)
Definition trimmed (s : jsstring) : Prop := trim s = s.

(** A document with a heading, a paragraph with formatted text and a link,
    a list and an image. *)
Definition sampleDocument : value :=
  JArray
    [ JObject [ (u16 "type", JString (u16 "heading-2"));
                (u16 "children",
                  JArray [ JObject [ (u16 "type", JString (u16 "text"));
                                     (u16 "text", JString (u16 "Title")) ] ]) ];
      JObject [ (u16 "type", JString (u16 "paragraph"));
                (u16 "children",
                  JArray [ JObject [ (u16 "type", JString (u16 "text"));
                                     (u16 "text", JString (u16 "a > b"));
                                     (u16 "bold", JBool true);
                                     (u16 "italic", JNumber (Finite 1)) ];
                           JObject [ (u16 "type", JString (u16 "link"));
                                     (u16 "url", JString (u16 "https://x.y/?q=1"));
                                     (u16 "children",
                                       JArray [ JObject [ (u16 "type", JString (u16 "text"));
                                                          (u16 "text", JString (u16 "here")) ] ]) ] ]) ];
      JObject [ (u16 "type", JString (u16 "bulleted-list"));
                (u16 "children",
                  JArray [ JObject [ (u16 "type", JString (u16 "list-item")) ] ]) ];
      JObject [ (u16 "type", JString (u16 "image"));
                (u16 "url", JString (u16 "x.png")) ] ].

(** The loop [run] enters at a star, under its own name. *)
Definition star_loop (input : jsstring) (r : regex) (k : nat -> option nat)
  : nat -> nat -> option nat :=
  fix loop (fuel : nat) (i : nat) : option nat :=
    match fuel with
    | O => k i
    | S fuel' =>
        match run input r (fun j => if i <? j then loop fuel' j else None) i with
        | Some e => Some e
        | None => k i
        end
    end.

(** Every code unit satisfying [p] replaced by [replacement]. *)
Definition replaceEach (p : char16 -> bool) (replacement : jsstring) (s : jsstring)
  : jsstring :=
  flat_map (fun c => if p c then replacement else [c]) s.

(** Every maximal run of code units satisfying [p] replaced by
    [replacement]; [inRun] tells that the run at the head has been
    replaced already. *)
Fixpoint squeeze (p : char16 -> bool) (replacement : jsstring) (inRun : bool)
  (s : jsstring) : jsstring :=
  match s with
  | [] => []
  | c :: s' =>
      if p c then
        if inRun then squeeze p replacement true s'
        else replacement ++ squeeze p replacement true s'
      else c :: squeeze p replacement false s'
  end.

(** No two hyphens in a row. *)
Fixpoint noDoubleHyphen (s : jsstring) : bool :=
  match s with
  | a :: (b :: _) as rest => negb (N.eqb a 45 && N.eqb b 45) && noDoubleHyphen rest
  | _ => true
  end.

(** The code units of a section id. *)
Definition idUnit (c : char16) : bool := isLowerAlnum c || N.eqb c 45.

(** [toLowerCase] on strings of ASCII code units: [A] to [Z] go to [a] to
    [z]. The method of the run-time also maps letters outside ASCII, which
    this function leaves alone. *)
Definition asciiToLowerCase (s : jsstring) : jsstring :=
  map (fun c => if isAsciiUpper c then (c + 32)%N else c) s.


(** How [join] prints an element: nothing for [null] and [undefined]. *)
Definition joinPiece (item : value) : completion jsstring :=
  match item with
  | JUndefined | JNull => Normal []
  | _ => ToString item
  end.

(** The class of [/[^a-z0-9]/]. *)
Definition nonAlnum (c : char16) : bool := negb (isLowerAlnum c).

(** * Properties *)

(** ** The run-time model on examples *)

Example Number_toString_negative : Number_toString (Finite (-12)) = u16 "-12".
Proof. reflexivity. Qed.

(** [String(2 ** 64)]: seventeen significant digits, then zeros. *)
Example Number_toString_two_to_64 :
  Number_toString (Finite (2 ^ 64)) = u16 "18446744073709552000".
Proof. vm_compute. reflexivity. Qed.

(** [String(9007199254740993)]: the literal is not a double; the tie goes
    to the even significand. *)
Example Number_toString_past_safe_integers :
  Number_toString (Finite (2 ^ 53 + 1)) = u16 "9007199254740992"
  /\ Number_toString (Finite (2 ^ 53 + 3)) = u16 "9007199254740996".
Proof. split; vm_compute; reflexivity. Qed.

(** Exponent notation starts at 1e21. *)
Example Number_toString_exponent :
  Number_toString (Finite (10 ^ 21 - 1)) = u16 "1e+21"
  /\ Number_toString (Finite (10 ^ 20)) = u16 "100000000000000000000"
  /\ Number_toString (Finite (2 ^ 70)) = u16 "1.1805916207174113e+21"
  /\ Number_toString (Finite (- 2 ^ 100)) = u16 "-1.2676506002282294e+30".
Proof. repeat split; vm_compute; reflexivity. Qed.

(** [Number.MAX_VALUE] and the first integer that rounds to Infinity. *)
Example Number_toString_largest :
  Number_toString (Finite (2 ^ 1024 - 2 ^ 971))
  = u16 "1.7976931348623157e+308"
  /\ Number_toString (Finite (2 ^ 1024 - 2 ^ 970)) = u16 "Infinity".
Proof. split; vm_compute; reflexivity. Qed.

(** [String(0.1)], [String(1 / 3)], [String(0.1 + 0.2)], [String(-2.5)],
    [String(123.456)]. *)
Example Number_toString_fraction :
  Number_toString (Ratio 1 10) = u16 "0.1"
  /\ Number_toString (Ratio 1 3) = u16 "0.3333333333333333"
  /\ Number_toString (Ratio 1351079888211149 (2 ^ 52))
     = u16 "0.30000000000000004"
  /\ Number_toString (Ratio (-5) 2) = u16 "-2.5"
  /\ Number_toString (Ratio 123456 1000) = u16 "123.456".
Proof. repeat split; vm_compute; reflexivity. Qed.

(** Small magnitudes: exponent notation starts below 1e-6;
    [Number.MIN_VALUE]; a quotient below half of it is zero, and falsy. *)
Example Number_toString_small :
  Number_toString (Ratio 1 (10 ^ 6)) = u16 "0.000001"
  /\ Number_toString (Ratio 1 (10 ^ 7)) = u16 "1e-7"
  /\ Number_toString (Ratio 1 (2 ^ 1074)) = u16 "5e-324"
  /\ Number_toString (Ratio (-1) (10 ^ 400)) = u16 "0"
  /\ ToBoolean (JNumber (Ratio (-1) (10 ^ 400))) = false
  /\ ToBoolean (JNumber (Ratio 1 (2 ^ 1074))) = true.
Proof. repeat split; vm_compute; reflexivity. Qed.

(** An integer is not rounded to zero, so the truthiness of [Finite z]
    is that of the quotient [z / 1]. *)
Section IntegersAmongNumbers.

Local Open Scope Z_scope.

Lemma scale_positive base k : 0 < base -> 0 < scale base k.
Proof. intros H. unfold scale. apply Z.pow_pos_nonneg; lia. Qed.

Lemma log2Ratio_integer a : 0 < a -> log2Ratio a 1 <= Z.log2 a.
Proof.
  intros _. unfold log2Ratio.
  change (Z.log2 1) with 0. rewrite Z.sub_0_r.
  destruct (_ <=? _); lia.
Qed.

Lemma nearestDouble_integer_nonzero a :
  0 < a ->
  match nearestDouble a 1 with
  | Some (m, _) => 0 < m
  | None => True
  end.
Proof.
  intros Ha. unfold nearestDouble.
  destruct (Z.eqb_spec a 0) as [E | _]; [lia|].
  set (e := Z.max (log2Ratio a 1 - 52) (-1074)).
  assert (Hd : 0 < 1 * scale 2 e)
    by (pose proof (@scale_positive 2 e); lia).
  assert (Hn : 1 * scale 2 e <= a * scale 2 (- e)).
  { unfold scale. destruct (Z.le_gt_cases e 0) as [He | He].
    - rewrite (Z.max_l 0 e) by lia. rewrite (Z.max_r 0 (- e)) by lia.
      change (2 ^ 0) with 1.
      assert (0 < 2 ^ (- e)) by (apply Z.pow_pos_nonneg; lia). nia.
    - rewrite (Z.max_r 0 e) by lia. rewrite (Z.max_l 0 (- e)) by lia.
      change (2 ^ 0) with 1.
      pose proof (@log2Ratio_integer a Ha) as Hl.
      assert (e <= Z.log2 a) by (unfold e; lia).
      assert (2 ^ e <= 2 ^ Z.log2 a) by (apply Z.pow_le_mono_r; lia).
      pose proof (Z.log2_spec a Ha). lia. }
  pose proof (Z_div_mod (a * scale 2 (- e)) (1 * scale 2 e)) as Hdiv.
  destruct (Z.div_eucl (a * scale 2 (- e)) (1 * scale 2 e)) as [q r].
  destruct Hdiv as [Heq Hr]; [lia|].
  assert (Hq : 1 <= q) by nia.
  destruct (_ || _); destruct (_ <=? _); try exact I;
    pose proof (@scale_positive 2 e); nia.
Qed.

Lemma roundsToZero_integer z : roundsToZero (Z.abs z) 1 = (z =? 0).
Proof.
  destruct (Z.eqb_spec z 0) as [-> | Hz]; [reflexivity|].
  unfold roundsToZero.
  pose proof (@nearestDouble_integer_nonzero (Z.abs z)) as H.
  destruct (nearestDouble (Z.abs z) 1) as [[m t] |]; [|reflexivity].
  apply Z.eqb_neq. assert (0 < m) by (apply H; lia). lia.
Qed.

Lemma Ratio_one_is_Finite z :
  Number_toString (Ratio z 1) = Number_toString (Finite z)
  /\ ToBoolean (JNumber (Ratio z 1)) = ToBoolean (JNumber (Finite z)).
Proof.
  split; [reflexivity|].
  cbn [ToBoolean]. change (Z.pos 1) with 1. rewrite roundsToZero_integer.
  reflexivity.
Qed.

End IntegersAmongNumbers.

Example trim_both_ends : trim (u16 "  a b " ++ LF) = u16 "a b".
Proof. reflexivity. Qed.

Example split_heading : split_unit 45%N (u16 "heading-2-x") = map u16 ["heading"; "2"; "x"].
Proof. reflexivity. Qed.

Example split_newlines_keeps_empty_ends :
  String_split (LF ++ u16 "a" ++ LF ++ LF ++ u16 "b" ++ LF) newlines
  = [ []; u16 "a"; u16 "b"; [] ].
Proof. vm_compute. reflexivity. Qed.

Example split_blank_lines :
  String_split (u16 "a" ++ LF ++ u16 " " ++ LF ++ LF ++ u16 "b" ++ LF ++ u16 "c") blankLine
  = [ u16 "a"; u16 "b" ++ LF ++ u16 "c" ].
Proof. vm_compute. reflexivity. Qed.

Example match_is_case_insensitive :
  String_match (u16 "ok" ++ LF ++ u16 "KIND REGARDS" ++ LF ++ u16 "Al") signOffPattern
  = Some {| index := 3; endIndex := 18 |}.
Proof. vm_compute. reflexivity. Qed.

Example render_paragraph :
  convertJSONToHTML
    (JObject [ (u16 "type", JString (u16 "paragraph"));
               (u16 "children",
                 JArray [ JObject [ (u16 "type", JString (u16 "text"));
                                    (u16 "text", JString (u16 "a")) ] ]) ])
  = Normal (JString (u16 "<p>a</p>")).
Proof. reflexivity. Qed.

Example render_heading :
  convertJSONToHTML
    (JObject [ (u16 "type", JString (u16 "heading-2"));
               (u16 "children",
                 JArray [ JObject [ (u16 "type", JString (u16 "text"));
                                    (u16 "text", JString (u16 "T")) ] ]) ])
  = Normal (JString (u16 "<h2>T</h2>")).
Proof. reflexivity. Qed.

Example render_image :
  convertJSONToHTML
    (JObject [ (u16 "type", JString (u16 "image")); (u16 "url", JString (u16 "x.png")) ])
  = Normal (JString (u16 "<img src=" ++ dquote ++ u16 "x.png" ++ dquote
                     ++ u16 " alt=" ++ dquote ++ dquote ++ u16 " />")).
Proof. reflexivity. Qed.

Example balanced_accepts_nesting :
  balanced (u16 "a<p>x<strong><em>b</em></strong></p><h2>T</h2><img src=x alt=y />") = true.
Proof. reflexivity. Qed.

Example balanced_rejects_crossing : balanced (u16 "<p><em></p></em>") = false.
Proof. reflexivity. Qed.

Example balanced_rejects_unclosed : balanced (u16 "<p>") = false.
Proof. reflexivity. Qed.

Example balanced_rejects_foreign_tag : balanced (u16 "<div></div>") = false.
Proof. reflexivity. Qed.

(** ** The renderer *)

Section RendererFacts.

Lemma render_undefined : convertJSONToHTML JUndefined = Normal (JString []).
Proof. reflexivity. Qed.

(** The renderer applied along the property list is the renderer applied
    to the looked-up property. *)
Lemma with_prop_render key props :
  with_prop convertJSONToHTML (Normal (JString [])) key props
  = convertJSONToHTML (get key props).
Proof.
  induction props as [|[k v] props IH]; [reflexivity|].
  cbn [with_prop get]. destruct (JsString.eqb k key); [reflexivity|exact IH].
Qed.

Lemma mapM_values props :
  mapM (fun kv => convertJSONToHTML (snd kv)) props
  = mapM convertJSONToHTML (values props).
Proof.
  unfold values.
  induction props as [|[k v] props IH]; [reflexivity|].
  cbn [mapM map snd] in *. now rewrite IH.
Qed.

Lemma render_array items :
  convertJSONToHTML (JArray items)
  = (rendered <- mapM convertJSONToHTML items ;;
     s <- join_values [] rendered ;;
     Normal (JString s)).
Proof. reflexivity. Qed.

(** The last two branches: an object whose [type] selects no earlier
    branch renders its [children] when that property is truthy, and all
    its property values otherwise. *)
Lemma render_unrecognized props :
  unrecognizedType (get (u16 "type") props) = true ->
  convertJSONToHTML (JObject props)
  = if ToBoolean (get (u16 "children") props)
    then convertJSONToHTML (get (u16 "children") props)
    else (rendered <- mapM convertJSONToHTML (values props) ;;
          s <- join_values [] rendered ;;
          Normal (JString s)).
Proof.
  intros Hty.
  cbn [convertJSONToHTML ToBoolean negb].
  rewrite with_prop_render, mapM_values.
  destruct (get (u16 "type") props) as [| | |?|s| |]; try discriminate Hty;
    try reflexivity.
  cbn [unrecognizedType] in Hty.
  apply andb_prop in Hty. destruct Hty as [Hrec Hhead].
  apply negb_true_iff in Hrec, Hhead.
  cbn [existsb map recognizedTypes] in Hrec.
  repeat (apply orb_false_elim in Hrec; destruct Hrec as [? Hrec]).
  cbn [strict_eq_string optional_startsWith bind].
  repeat match goal with H : JsString.eqb s _ = false |- _ => rewrite H; clear H end.
  rewrite Hhead. reflexivity.
Qed.

End RendererFacts.

(** ** Shape of the splitter's output *)

Section Shape.

Lemma emitted_snoc content node :
  Forall emitted content -> emitted node -> Forall emitted (content ++ [node]).
Proof.
  intros Hc Hn. apply Forall_app. split; [exact Hc|]. constructor; [exact Hn|constructor].
Qed.

Lemma pushParagraphs_emitted paragraphs :
  forall index count content,
    Forall emitted content ->
    Forall emitted (pushParagraphs paragraphs index count content).
Proof.
  induction paragraphs as [|p rest IH]; intros index count content Hc; [exact Hc|].
  cbn [pushParagraphs]. apply IH.
  destruct (index <? count - 1).
  - apply emitted_snoc; [apply emitted_snoc|]; [exact Hc|right; now exists p|now left].
  - apply emitted_snoc; [exact Hc|right; now exists p].
Qed.

Lemma pushSignature_emitted lines :
  forall content,
    Forall emitted content -> Forall emitted (pushSignature lines content).
Proof.
  induction lines as [|l rest IH]; intros content Hc; [exact Hc|].
  cbn [pushSignature]. apply IH, emitted_snoc; [exact Hc|right; now exists l].
Qed.

Lemma pushParagraphs_length paragraphs :
  forall index count content,
    length content + length paragraphs
    <= length (pushParagraphs paragraphs index count content).
Proof.
  induction paragraphs as [|p rest IH]; intros index count content; cbn [pushParagraphs length].
  - lia.
  - specialize (IH (S index) count
                  (if index <? count - 1
                   then (content ++ [paragraphNode p]) ++ [spacerNode]
                   else content ++ [paragraphNode p])).
    destruct (index <? count - 1); repeat rewrite length_app in IH; cbn [length] in IH; lia.
Qed.

Lemma pushSignature_length lines :
  forall content,
    length (pushSignature lines content) = length content + length lines.
Proof.
  induction lines as [|l rest IH]; intros content; cbn [pushSignature length]; [lia|].
  rewrite IH, length_app. cbn [length]. lia.
Qed.

(** Whatever the detection passes found, the document is a [doc] node
    over a non-empty sequence of emitted nodes. *)
Lemma buildDocument_shape text st :
  exists content,
    buildDocument text st = docNode content
    /\ Forall emitted content
    /\ 1 <= length content.
Proof.
  unfold buildDocument. cbv zeta.
  set (paragraphs :=
         if (length (splitParagraphs (mainContent st)) =? 0)
            && (length (signatureLines st) =? 0)
         then splitParagraphs (mainContent st) ++ [text]
         else splitParagraphs (mainContent st)).
  set (body := pushParagraphs paragraphs 0 (length paragraphs) []).
  assert (Hbody : Forall emitted body) by (apply pushParagraphs_emitted; constructor).
  assert (Hlen : length paragraphs <= length body)
    by (pose proof (pushParagraphs_length paragraphs 0 (length paragraphs) []) as L;
        cbn [length] in L; exact L).
  eexists. split; [reflexivity|].
  destruct (0 <? length (signatureLines st)) eqn:Hsig.
  - apply Nat.ltb_lt in Hsig. split.
    + apply pushSignature_emitted.
      destruct (0 <? length paragraphs); [apply emitted_snoc; [exact Hbody|now left]|exact Hbody].
    + rewrite pushSignature_length. lia.
  - apply Nat.ltb_ge in Hsig. split; [exact Hbody|].
    assert (1 <= length paragraphs); [|lia].
    subst paragraphs.
    destruct (length (splitParagraphs (mainContent st)) =? 0) eqn:Hp.
    + replace (length (signatureLines st) =? 0) with true
        by (symmetry; apply Nat.eqb_eq; lia).
      cbn [andb]. rewrite length_app. cbn [length]. lia.
    + cbn [andb]. apply Nat.eqb_neq in Hp. lia.
Qed.

End Shape.

Section RenderingTheDocument.

Lemma render_emitted node :
  emitted node -> convertJSONToHTML node = Normal (JString emptyParagraph).
Proof. intros [->|[text ->]]; reflexivity. Qed.

Lemma join_empty_separator pieces : join [] pieces = concat pieces.
Proof.
  induction pieces as [|p [|q rest] IH]; [reflexivity| |].
  - cbn. now rewrite app_nil_r.
  - change (join [] (p :: q :: rest)) with (p ++ [] ++ join [] (q :: rest)).
    rewrite IH. reflexivity.
Qed.

Lemma join_values_strings pieces :
  join_values [] (map JString pieces) = Normal (concat pieces).
Proof.
  unfold join_values.
  assert (H : mapM (fun item => match item with
                                | JUndefined | JNull => Normal []
                                | _ => ToString item
                                end) (map JString pieces) = Normal pieces).
  { induction pieces as [|p rest IH]; [reflexivity|].
    cbn [map mapM bind ToString]. cbn [map mapM] in IH. rewrite IH. reflexivity. }
  rewrite H. cbn [bind]. now rewrite join_empty_separator.
Qed.

Lemma render_all_emitted content :
  Forall emitted content ->
  mapM convertJSONToHTML content
  = Normal (map JString (repeat emptyParagraph (length content))).
Proof.
  induction 1 as [|node content Hn _ IH]; [reflexivity|].
  cbn [mapM length repeat map bind] in *. rewrite (render_emitted Hn), IH. reflexivity.
Qed.

Lemma render_docNode content :
  Forall emitted content ->
  convertJSONToHTML (docNode content)
  = Normal (JString (u16 "doc" ++ concat (repeat emptyParagraph (length content)))).
Proof.
  intros Hc. unfold docNode.
  match goal with
  | |- convertJSONToHTML (JObject ?props) = _ =>
      rewrite (@render_unrecognized props eq_refl);
      change (ToBoolean (get (u16 "children") props)) with false
  end.
  cbv iota. cbn [values map snd mapM bind].
  change (convertJSONToHTML (JString (u16 "doc"))) with (Normal (JString (u16 "doc"))).
  rewrite render_array, (render_all_emitted Hc).
  cbn [bind]. rewrite join_values_strings. cbn [bind].
  match goal with
  | |- context [join_values [] [JString ?a; JString ?b]] =>
      change [JString a; JString b] with (map JString [a; b])
  end.
  rewrite join_values_strings. cbn [concat]. now rewrite app_nil_r.
Qed.

End RenderingTheDocument.

(** ** The matcher *)

Section MatcherFacts.

Variable input : jsstring.

(** A successful run ends in its continuation. *)
Lemma run_continuation r :
  forall k i e, run input r k i = Some e -> exists j, k j = Some e.
Proof.
  induction r as [|p|r1 IH1 r2 IH2|r1 IH1 r2 IH2|r1 IH1| |];
    intros k i e H.
  - now exists i.
  - cbn [run] in H. destruct (nth_error input i) as [c|]; [|discriminate].
    destruct (p c); [now exists (S i)|discriminate].
  - cbn [run] in H. apply IH1 in H. destruct H as [j H]. now apply IH2 in H.
  - cbn [run] in H. destruct (run input r1 k i) eqn:E.
    + injection H as ->. now apply IH1 in E.
    + now apply IH2 in H.
  - assert (L : forall fuel i,
               (fix loop (fuel : nat) (i : nat) : option nat :=
                  match fuel with
                  | O => k i
                  | S fuel' =>
                      match run input r1
                              (fun j => if i <? j then loop fuel' j else None) i with
                      | Some e => Some e
                      | None => k i
                      end
                  end) fuel i = Some e -> exists j, k j = Some e).
    { induction fuel as [|fuel IHf]; intros i0 H0; [now exists i0|].
      simpl in H0.
      match type of H0 with
      | match ?c with _ => _ end = _ => destruct c eqn:E
      end.
      - injection H0 as ->. apply IH1 in E. destruct E as [j E].
        destruct (i0 <? j); [now apply IHf in E|discriminate].
      - now exists i0. }
    exact (L (S (length input - i)) i H).
  - cbn [run] in H.
    destruct (atWordBoundary input i); [now exists i|discriminate].
  - cbn [run] in H.
    destruct (i =? length input); [now exists i|discriminate].
Qed.

(** A pattern that ends in [$] matches up to the end of the input. *)
Lemma run_anchored rs :
  forall i e,
    matchAt input (seqs (rs ++ [EndOfInput])) i = Some e -> e = length input.
Proof.
  unfold matchAt.
  induction rs as [|r rs IH]; intros i e H.
  - cbn [app seqs run] in H.
    destruct (i =? length input) eqn:E; [|discriminate].
    apply Nat.eqb_eq in E. injection H as <-. exact E.
  - change (seqs ((r :: rs) ++ [EndOfInput]))
      with (seqs (r :: rs ++ [EndOfInput])) in H.
    destruct (rs ++ [EndOfInput]) as [|r' rest] eqn:E.
    + destruct rs; discriminate E.
    + cbn [seqs run] in H. apply run_continuation in H.
      destruct H as [j H]. exact (IH j e H).
Qed.

Lemma search_sound r fuel :
  forall i m,
    search input r fuel i = Some m ->
    matchAt input r (index m) = Some (endIndex m)
    /\ i <= index m <= i + fuel.
Proof.
  induction fuel as [|fuel IH]; intros i m H; cbn [search] in H.
  - destruct (matchAt input r i) eqn:E; [|discriminate].
    injection H as <-. cbn. split; [exact E|lia].
  - destruct (matchAt input r i) eqn:E.
    + injection H as <-. cbn. split; [exact E|lia].
    + apply IH in H. destruct H as [H1 H2]. split; [exact H1|lia].
Qed.

End MatcherFacts.

Section StringFacts.

Lemma startsWith_refl s : startsWith s s = true.
Proof.
  induction s as [|c s IH]; [reflexivity|].
  cbn [startsWith]. now rewrite N.eqb_refl, IH.
Qed.

Lemma startsWith_longer prefix :
  forall s, length s < length prefix -> startsWith s prefix = false.
Proof.
  induction prefix as [|p prefix IH]; intros s H; cbn [length] in H; [lia|].
  destruct s as [|c s]; [reflexivity|].
  cbn [startsWith length] in *. rewrite IH by lia. apply andb_false_r.
Qed.

Lemma lastIndexOf_from_suffix s i :
  forall k,
    i <= k -> k <= length s ->
    lastIndexOf_from s (skipn i s) k = Z.of_nat i.
Proof.
  induction k as [|k IH]; intros Hik Hk.
  - assert (i = 0) as -> by lia. cbn [lastIndexOf_from skipn].
    now rewrite startsWith_refl.
  - destruct (Nat.eq_dec i (S k)) as [->|Hne].
    + cbn [lastIndexOf_from]. now rewrite startsWith_refl.
    + cbn [lastIndexOf_from].
      rewrite startsWith_longer by (rewrite !length_skipn; lia).
      apply IH; lia.
Qed.

(** The last occurrence of a suffix is the suffix itself. *)
Lemma lastIndexOf_suffix s i :
  i <= length s -> lastIndexOf s (skipn i s) = Z.of_nat i.
Proof. intros H. apply lastIndexOf_from_suffix; [exact H|lia]. Qed.

Lemma substring_to_end s i : substring s i (length s) = skipn i s.
Proof.
  unfold substring. apply firstn_all2. rewrite length_skipn. lia.
Qed.

End StringFacts.

Section SplitterFacts.

(** The source looks the matched text up again with [lastIndexOf]; the
    pattern is anchored at the end, so that finds the start index of the
    match. *)
Lemma signOffIndex_is_match_index text m :
  String_match text signOffPattern = Some m ->
  lastIndexOf text (matched text m) = Z.of_nat (index m).
Proof.
  intros H. apply search_sound in H. destruct H as [Hm Hi].
  change signOffPattern with
    (seqs ([ WordBoundary;
             alts (phrase_i "Best regards")
               [ phrase_i "Regards"; phrase_i "Sincerely"; phrase_i "Thanks";
                 phrase_i "Thank you"; phrase_i "Cheers"; phrase_i "Best";
                 phrase_i "All the best"; phrase_i "Yours truly";
                 phrase_i "Yours sincerely"; phrase_i "Kind regards";
                 phrase_i "Cordially" ];
             Opt (lit_i ","%char); Star space; Plus newline; Star space;
             Char isAsciiLetter;
             Star (Char (fun c => isAsciiLetter c || isWhiteSpace c || N.eqb c 46)) ]
           ++ [EndOfInput])) in Hm.
  apply run_anchored in Hm.
  unfold matched. rewrite Hm, substring_to_end.
  apply lastIndexOf_suffix. lia.
Qed.

End SplitterFacts.

Section BalancedFacts.

Lemma balanced_paragraphs n :
  balancedFrom (concat (repeat emptyParagraph n)) [] InText = true.
Proof.
  induction n as [|n IH]; [reflexivity|].
  cbn [repeat concat].
  change (balancedFrom (emptyParagraph ++ concat (repeat emptyParagraph n)) [] InText)
    with (balancedFrom (concat (repeat emptyParagraph n)) [] InText).
  exact IH.
Qed.

Lemma balanced_doc_paragraphs n :
  balanced (u16 "doc" ++ concat (repeat emptyParagraph n)) = true.
Proof. exact (balanced_paragraphs n). Qed.

End BalancedFacts.


(** * The claims *)

(** C1, as stated: rendering the bold and code text node [hi] would give
    [<strong><code>hi</code></strong>], bold outermost. The renderer
    returns another string. *)
Lemma bold_code_not_strong_outermost :
  convertJSONToHTML (JObject boldCodeHi)
  <> Normal (JString (u16 "<strong><code>hi</code></strong>")).
Proof. vm_compute. intro H. discriminate H. Qed.

(** C1, amended: a text node renders its text, which is [json.text] or
    the empty string when that is missing or falsy, wrapped for each
    truthy flag, the wrappers applied in the order bold, italic,
    underline, code, each around the result so far: [<strong>] is
    innermost and [<code>] outermost. The first wrapper converts the text
    to a string; with no flag set the text is returned as it is. *)
Theorem text_node_wraps_code_outermost props :
  get (u16 "type") props = JString (u16 "text") ->
  convertJSONToHTML (JObject props) =
  let text := or_else (get (u16 "text") props) (JString []) in
  if flag "bold" props || flag "italic" props
     || flag "underline" props || flag "code" props
  then
    s <- ToString text ;;
    Normal (JString (wrap (flag "code" props) "code"
                    (wrap (flag "underline" props) "u"
                    (wrap (flag "italic" props) "em"
                    (wrap (flag "bold" props) "strong" s)))))
  else Normal text.
Proof.
  intros Ht. unfold flag.
  cbn [convertJSONToHTML ToBoolean negb].
  rewrite Ht.
  change (strict_eq_string (JString (u16 "text")) (u16 "text")) with true.
  cbv iota zeta.
  generalize (or_else (get (u16 "text") props) (JString [])).
  intros text.
  destruct (ToBoolean (get (u16 "bold") props)),
           (ToBoolean (get (u16 "italic") props)),
           (ToBoolean (get (u16 "underline") props)),
           (ToBoolean (get (u16 "code") props));
    cbn [orb bind wrap]; try reflexivity;
    unfold template_value; cbn [template bind];
    destruct (ToString text); reflexivity.
Qed.

Lemma text_node_wraps_code_outermost_witness :
  get (u16 "type") boldCodeHi = JString (u16 "text")
  /\ convertJSONToHTML (JObject boldCodeHi)
     = Normal (JString (u16 "<code><strong>hi</strong></code>"))
  /\ convertJSONToHTML
       (JObject [ (u16 "type", JString (u16 "text"));
                  (u16 "italic", JBool true); (u16 "underline", JBool true) ])
     = Normal (JString (u16 "<u><em></em></u>")).
Proof.
  split; [reflexivity|]. split.
  - exact (@text_node_wraps_code_outermost boldCodeHi eq_refl).
  - exact (@text_node_wraps_code_outermost
             [ (u16 "type", JString (u16 "text"));
               (u16 "italic", JBool true); (u16 "underline", JBool true) ]
             eq_refl).
Defined.

(** C2, as stated: the rendering of a split text would be a run of
    [<p></p>] and nothing else. For the empty text it is
    [doc<p></p>]. *)
Lemma rendered_split_not_only_paragraphs :
  ~ exists n,
      convertJSONToHTML (createAIJsonContent [])
      = Normal (JString (concat (repeat emptyParagraph n))).
Proof.
  intros [n H].
  change (convertJSONToHTML (createAIJsonContent []))
    with (Normal (JString (u16 "doc<p></p>"))) in H.
  destruct n as [|n]; discriminate H.
Qed.

(** C2, amended: for every text, the rendering of its split document is
    the word [doc] (the root's [type], rendered as a property value)
    followed by one [<p></p>] per content node, of which there is at
    least one; no paragraph text is rendered, the text nodes being kept
    under [content] and not under [children]. *)
Theorem rendered_split_is_doc_then_empty_paragraphs text :
  exists content,
    createAIJsonContent text = docNode content
    /\ Forall emitted content
    /\ 1 <= length content
    /\ convertJSONToHTML (createAIJsonContent text)
       = Normal (JString (u16 "doc" ++ concat (repeat emptyParagraph (length content)))).
Proof.
  destruct (buildDocument_shape text (detectSignature text)) as (content & E & Hc & Hl).
  exists content. unfold createAIJsonContent. rewrite E.
  repeat split; [exact Hc|exact Hl|]. now apply render_docNode.
Qed.

(** C3, at a failing input: no sign-off pattern matches, the text has
    four lines, and of the last three the first and the third qualify.
    The signature is those two lines, the body is the first two lines of
    the text: the line [See you soon.] is in neither, and [Alice] is in
    both. *)
Theorem fallback_loses_middle_line :
  String_match lostLineText signOffPattern = None
  /\ String_split lostLineText newlines
     = [ u16 "Intro line one is here."; u16 "Alice"; u16 "See you soon."; u16 "Bob" ]
  /\ detectSignature lostLineText
     = {| mainContent := u16 "Intro line one is here." ++ LF ++ u16 "Alice";
          signatureLines := [ u16 "Alice"; u16 "Bob" ] |}
  /\ ~ In (u16 "See you soon.") (signatureLines (detectSignature lostLineText))
  /\ ~ In (u16 "See you soon.")
       (String_split (mainContent (detectSignature lostLineText)) newlines)
  /\ createAIJsonContent lostLineText
     = docNode [ paragraphNode (u16 "Intro line one is here." ++ LF ++ u16 "Alice");
                 spacerNode;
                 paragraphNode (u16 "Alice");
                 paragraphNode (u16 "Bob") ].
Proof.
  repeat split; try (vm_compute; reflexivity);
    vm_compute; intros [H|[H|[]]]; discriminate H.
Qed.

(** C4: when the sign-off pattern matches and the match starts at index 0,
    the pattern pass leaves the main content equal to the whole text and
    the signature empty, and detection continues with the fallback pass
    from that state. *)
Theorem sign_off_at_start_not_honoured text m :
  String_match text signOffPattern = Some m ->
  index m = 0 ->
  extractSignOff signOffPatterns text (initial text) = initial text
  /\ detectSignature text = fallbackSignature text (initial text).
Proof.
  intros Hm Hi.
  assert (E : extractSignOff signOffPatterns text (initial text) = initial text).
  { unfold signOffPatterns. cbn [extractSignOff]. rewrite Hm.
    rewrite (signOffIndex_is_match_index text Hm), Hi. reflexivity. }
  split; [exact E|].
  unfold detectSignature. fold (initial text). now rewrite E.
Qed.

(** On ["Thanks,\nBob"] the sign-off spans the whole text; the fallback
    pass then takes both lines as the signature. *)
Lemma sign_off_at_start_not_honoured_witness :
  String_match thanksBob signOffPattern = Some {| index := 0; endIndex := 11 |}
  /\ fallbackSignature thanksBob (initial thanksBob)
     = {| mainContent := []; signatureLines := [ u16 "Thanks,"; u16 "Bob" ] |}
  /\ extractSignOff signOffPatterns thanksBob (initial thanksBob) = initial thanksBob
  /\ detectSignature thanksBob = fallbackSignature thanksBob (initial thanksBob).
Proof.
  split; [vm_compute; reflexivity|]. split; [vm_compute; reflexivity|].
  apply (@sign_off_at_start_not_honoured thanksBob {| index := 0; endIndex := 11 |});
    vm_compute; reflexivity.
Defined.

(** C5, as stated: [render(0)] would be ["0"] and [render(false)] would be
    ["false"]. Both are the empty string. *)
Lemma render_zero_false_empty :
  convertJSONToHTML (JNumber (Finite 0)) <> Normal (JString (Number_toString (Finite 0)))
  /\ convertJSONToHTML (JBool false) <> Normal (JString (Boolean_toString false)).
Proof. split; vm_compute; intro H; discriminate H. Qed.

(** C5, amended: a truthy number (not zero, not NaN) renders as its string
    representation and [true] as ["true"]; the falsy numbers and [false]
    render as the empty string: [render(0)], [render(-0)] and
    [render(NaN)] are empty. *)
Theorem render_number_boolean_truthy (n : number) (b : bool) :
  convertJSONToHTML (JNumber n)
  = Normal (JString (if ToBoolean (JNumber n) then Number_toString n else []))
  /\ convertJSONToHTML (JBool b)
     = Normal (JString (if b then Boolean_toString b else []))
  /\ convertJSONToHTML (JNumber (Finite 0)) = Normal (JString [])
  /\ convertJSONToHTML (JNumber NegZero) = Normal (JString [])
  /\ convertJSONToHTML (JNumber NaN) = Normal (JString []).
Proof.
  split; [|split; [|repeat split]].
  - cbn [convertJSONToHTML]. destruct (ToBoolean (JNumber n)); reflexivity.
  - destruct b; reflexivity.
Qed.

(** C6: the document of ["Hello there.\n\nBest regards,\nJane Doe"] has
    exactly the four nodes paragraph [Hello there.], spacer, paragraph
    [Best regards,], paragraph [Jane Doe]. *)
Theorem split_hello_best_regards :
  createAIJsonContent helloText
  = docNode [ paragraphNode (u16 "Hello there.");
              spacerNode;
              paragraphNode (u16 "Best regards,");
              paragraphNode (u16 "Jane Doe") ].
Proof. vm_compute. reflexivity. Qed.

(** C7: when the main content splits into no paragraph and no signature
    line was detected, the document is one paragraph holding the raw
    text. *)
Theorem raw_text_backfill text :
  splitParagraphs (mainContent (detectSignature text)) = [] ->
  signatureLines (detectSignature text) = [] ->
  createAIJsonContent text = docNode [ paragraphNode text ].
Proof.
  intros Hp Hs. unfold createAIJsonContent, buildDocument.
  rewrite Hp, Hs. reflexivity.
Qed.

Lemma raw_text_backfill_witness :
  splitParagraphs (mainContent (detectSignature [])) = []
  /\ signatureLines (detectSignature []) = []
  /\ createAIJsonContent [] = docNode [ paragraphNode [] ].
Proof.
  split; [reflexivity|]. split; [reflexivity|].
  apply (@raw_text_backfill []); reflexivity.
Defined.

(** C8, at a failing input: [null], [undefined] and the empty string
    render as the empty string, but the object [{ type: 5 }] makes the
    renderer throw a TypeError, [json.type.startsWith] not being a
    function. *)
Theorem render_throws_on_non_string_type :
  convertJSONToHTML JNull = Normal (JString [])
  /\ convertJSONToHTML JUndefined = Normal (JString [])
  /\ convertJSONToHTML (JString []) = Normal (JString [])
  /\ convertJSONToHTML numericType = Throw TypeError.
Proof. repeat split. Qed.

(** C9: for every text, rendering its split document returns normally, and
    the string returned is balanced markup over the renderer's tags. *)
Theorem rendered_split_balanced text :
  exists html,
    convertJSONToHTML (createAIJsonContent text) = Normal (JString html)
    /\ balanced html = true.
Proof.
  destruct (buildDocument_shape text (detectSignature text)) as (content & E & Hc & _).
  eexists. split.
  - unfold createAIJsonContent. rewrite E. now apply render_docNode.
  - apply balanced_doc_paragraphs.
Qed.

(** C10, as stated: an object with a [children] property and no recognised
    type would render as its children whatever they are. With
    [children: ''] the other property is rendered too. *)
Lemma falsy_children_renders_other_properties :
  unrecognizedType (get (u16 "type") emptyChildren) = true
  /\ hasOwn (u16 "children") emptyChildren = true
  /\ convertJSONToHTML (JObject emptyChildren)
     <> convertJSONToHTML (get (u16 "children") emptyChildren).
Proof. repeat split. vm_compute. intro H. discriminate H. Qed.

(** C10, amended: an object whose [type] is missing, null, or a string no
    branch recognises, and whose [children] property is truthy, renders
    as [render(children)] alone. *)
Theorem unrecognized_renders_truthy_children props :
  unrecognizedType (get (u16 "type") props) = true ->
  ToBoolean (get (u16 "children") props) = true ->
  convertJSONToHTML (JObject props) = convertJSONToHTML (get (u16 "children") props).
Proof.
  intros Hty Hch. rewrite (render_unrecognized props Hty), Hch. reflexivity.
Qed.

Lemma unrecognized_renders_truthy_children_witness :
  unrecognizedType (get (u16 "type") customNode) = true
  /\ ToBoolean (get (u16 "children") customNode) = true
  /\ convertJSONToHTML (JObject customNode) = Normal (JString (u16 "x")).
Proof.
  split; [reflexivity|]. split; [reflexivity|].
  exact (@unrecognized_renders_truthy_children customNode eq_refl eq_refl).
Defined.

(** * Further lemmas *)

(** ** Induction on values *)

Lemma value_nested_ind (P : value -> Prop) :
  P JUndefined -> P JNull -> (forall b, P (JBool b)) -> (forall n, P (JNumber n)) ->
  (forall s, P (JString s)) ->
  (forall items, Forall P items -> P (JArray items)) ->
  (forall props, Forall (fun kv => P (snd kv)) props -> P (JObject props)) ->
  forall v, P v.
Proof.
  intros Hu Hn Hb Hnum Hs Ha Ho.
  fix IH 1. intros [| |b|n|s|items|props].
  - exact Hu.
  - exact Hn.
  - apply Hb.
  - apply Hnum.
  - apply Hs.
  - apply Ha.
    exact ((fix go (l : list value) : Forall P l :=
              match l with
              | [] => Forall_nil P
              | x :: l' => Forall_cons x (IH x) (go l')
              end) items).
  - apply Ho.
    exact ((fix go (l : list (jsstring * value)) : Forall (fun kv => P (snd kv)) l :=
              match l with
              | [] => Forall_nil _
              | kv :: l' => Forall_cons kv (IH (snd kv)) (go l')
              end) props).
Qed.

(** ** The renderer, branch by branch *)

Section Branches.

Lemma template_value_one head c after s :
  ToString c = Normal s ->
  template_value head [(Normal c, after)] = Normal (JString (head ++ s ++ after)).
Proof. intros H. unfold template_value. cbn [template bind]. rewrite H. reflexivity. Qed.

Lemma render_wrapper_node props type opening closing c s :
  In (type, (opening, closing)) wrappers ->
  get (u16 "type") props = JString (u16 type) ->
  convertJSONToHTML (get (u16 "children") props) = Normal c ->
  ToString c = Normal s ->
  convertJSONToHTML (JObject props)
  = Normal (JString (u16 opening ++ s ++ u16 closing)).
Proof.
  intros Hin Hty Hc Hs.
  cbn [convertJSONToHTML ToBoolean negb].
  rewrite Hty, with_prop_render, Hc.
  unfold wrappers in Hin. cbn [In] in Hin.
  repeat (destruct Hin as [Hin|Hin];
          [injection Hin as <- <- <-; exact (template_value_one _ c _ Hs)|]).
  destruct Hin.
Qed.

Lemma split_unit_head s :
  exists rest, split_unit 45%N s = upToHyphen s :: rest.
Proof.
  induction s as [|c s [rest IH]]; [now exists []|].
  cbn [split_unit upToHyphen]. destruct (N.eqb c 45).
  - now eexists.
  - rewrite IH. now eexists.
Qed.

Lemma heading_level_prefix rest :
  heading_level (JString (u16 "heading-" ++ rest)) = JString (upToHyphen rest).
Proof.
  destruct (split_unit_head rest) as [tail E].
  unfold heading_level.
  change (split_unit 45%N (u16 "heading-" ++ rest))
    with (u16 "heading" :: split_unit 45%N rest).
  rewrite E. reflexivity.
Qed.

Lemma startsWith_nil s : startsWith s [] = true.
Proof. destruct s; reflexivity. Qed.

Lemma startsWith_app prefix rest : startsWith (prefix ++ rest) prefix = true.
Proof.
  induction prefix as [|p prefix IH]; [apply startsWith_nil|].
  cbn [app startsWith]. now rewrite N.eqb_refl, IH.
Qed.

Lemma render_heading_node props rest c s :
  get (u16 "type") props = JString (u16 "heading-" ++ rest) ->
  convertJSONToHTML (get (u16 "children") props) = Normal c ->
  ToString c = Normal s ->
  convertJSONToHTML (JObject props)
  = Normal (JString (u16 "<h" ++ upToHyphen rest ++ u16 ">" ++ s
                     ++ u16 "</h" ++ upToHyphen rest ++ u16 ">")).
Proof.
  intros Hty Hc Hs.
  cbn [convertJSONToHTML ToBoolean negb].
  rewrite Hty, with_prop_render, Hc, heading_level_prefix.
  change (strict_eq_string (JString (u16 "heading-" ++ rest)) (u16 "text")) with false.
  change (strict_eq_string (JString (u16 "heading-" ++ rest)) (u16 "paragraph")) with false.
  cbn [optional_startsWith]. rewrite startsWith_app.
  cbv iota. cbn [bind]. unfold template_value. cbn [template bind ToString].
  rewrite Hs. cbn [bind]. reflexivity.
Qed.

(** ** Arrays *)

Lemma mapM_app {A B} (f : A -> completion B) xs ys :
  mapM f (xs ++ ys) = (a <- mapM f xs ;; b <- mapM f ys ;; Normal (a ++ b)).
Proof.
  induction xs as [|x xs IH]; cbn [mapM app bind].
  - destruct (mapM f ys); reflexivity.
  - destruct (f x); cbn [bind]; [|reflexivity].
    rewrite IH. destruct (mapM f xs); cbn [bind]; [|reflexivity].
    destruct (mapM f ys); reflexivity.
Qed.

Lemma join_empty_app xs ys : join [] (xs ++ ys) = join [] xs ++ join [] ys.
Proof. rewrite !join_empty_separator. apply concat_app. Qed.

End Branches.

(** ** When the renderer cannot throw *)

Section NoThrow.

Lemma pieces_safe items :
  Forall (fun v => safe v = true -> exists s, ToString v = Normal s) items ->
  forallb safe items = true ->
  exists ps, mapM joinPiece items = Normal ps.
Proof.
  induction 1 as [|v items Hv _ IH]; intros Hs; [now exists []|].
  cbn [forallb] in Hs. apply andb_prop in Hs. destruct Hs as [Hsv Hsi].
  destruct (IH Hsi) as [ps Hps]. destruct (Hv Hsv) as [s Hts].
  cbn [mapM]. rewrite Hps.
  destruct v; cbn [joinPiece bind]; try rewrite Hts; cbn [bind]; now eexists.
Qed.

Lemma ToString_safe v : safe v = true -> exists s, ToString v = Normal s.
Proof.
  induction v as [| |b|n|s|items IH|props IH] using value_nested_ind;
    intros Hs; cbn [ToString]; try (now eexists).
  - cbn [safe] in Hs. destruct (pieces_safe IH Hs) as [ps Hps].
    change (exists s, (pieces <- mapM joinPiece items ;; Normal (join (u16 ",") pieces))
                      = Normal s).
    rewrite Hps. cbn [bind]. now eexists.
  - cbn [safe] in Hs. apply andb_prop in Hs. destruct Hs as [Hs _].
    apply andb_prop in Hs. destruct Hs as [Hs _].
    apply negb_true_iff in Hs. rewrite Hs. now eexists.
Qed.

Lemma join_values_safe sep items :
  forallb safe items = true -> exists s, join_values sep items = Normal s.
Proof.
  intros Hs. unfold join_values.
  destruct (@pieces_safe items) as [ps Hps]; [|exact Hs|].
  - apply Forall_forall. intros v _. apply ToString_safe.
  - change (exists s, (pieces <- mapM joinPiece items ;; Normal (join sep pieces)) = Normal s).
    rewrite Hps. cbn [bind]. now eexists.
Qed.

Lemma template_safe parts :
  forall head,
    Forall (fun p => exists v, fst p = Normal v /\ safe v = true) parts ->
    exists s, template head parts = Normal s.
Proof.
  induction parts as [|[e after] parts IH]; intros head Hp; [now eexists|].
  inversion Hp as [|? ? (v & Hv & Hs) Hrest]; subst. cbn [fst] in Hv. subst e.
  destruct (ToString_safe v Hs) as [s Hts].
  destruct (IH after Hrest) as [r Hr].
  cbn [template bind]. rewrite Hts. cbn [bind]. rewrite Hr. now eexists.
Qed.

Lemma template_value_safe head parts :
  Forall (fun p => exists v, fst p = Normal v /\ safe v = true) parts ->
  exists r, template_value head parts = Normal r /\ safe r = true.
Proof.
  intros Hp. destruct (template_safe head Hp) as [s Hs].
  unfold template_value. rewrite Hs. now eexists.
Qed.

Lemma safe_get key props :
  forallb (fun kv => safe (snd kv)) props = true -> safe (get key props) = true.
Proof.
  induction props as [|[k v] props IH]; intros H; [reflexivity|].
  cbn [forallb snd] in H. apply andb_prop in H. destruct H as [Hv Hp].
  cbn [get]. destruct (JsString.eqb k key); auto.
Qed.

Lemma flag_step_safe (b : bool) opening closing text :
  safe text = true ->
  exists text',
    (if b then template_value opening [(Normal text, closing)] else Normal text)
    = Normal text' /\ safe text' = true.
Proof.
  intros Hs. destruct b; [|now exists text].
  apply template_value_safe. constructor; [|constructor]. now exists text.
Qed.

Lemma render_all_safe items :
  Forall (fun v => safe v = true ->
                   exists r, convertJSONToHTML v = Normal r /\ safe r = true) items ->
  forallb safe items = true ->
  exists rs, mapM convertJSONToHTML items = Normal rs /\ forallb safe rs = true.
Proof.
  induction 1 as [|v items Hv _ IH]; intros Hs; [now exists []|].
  cbn [forallb] in Hs. apply andb_prop in Hs. destruct Hs as [Hsv Hsi].
  destruct (Hv Hsv) as (r & Hr & Hrs). destruct (IH Hsi) as (rs & Hrs' & Hss).
  cbn [mapM]. rewrite Hr. cbn [bind]. rewrite Hrs'. cbn [bind].
  exists (r :: rs). split; [reflexivity|]. cbn [forallb]. now rewrite Hrs, Hss.
Qed.

Lemma render_joined_safe items :
  Forall (fun v => safe v = true ->
                   exists r, convertJSONToHTML v = Normal r /\ safe r = true) items ->
  forallb safe items = true ->
  exists r,
    (rendered <- mapM convertJSONToHTML items ;;
     s <- join_values [] rendered ;;
     Normal (JString s)) = Normal r /\ safe r = true.
Proof.
  intros HF Hs. destruct (render_all_safe HF Hs) as (rs & Hrs & Hss).
  destruct (join_values_safe [] rs Hss) as [s Hj].
  rewrite Hrs. cbn [bind]. rewrite Hj. now eexists.
Qed.

Lemma forallb_values props :
  forallb safe (values props) = forallb (fun kv => safe (snd kv)) props.
Proof.
  unfold values. induction props as [|kv props IH]; [reflexivity|].
  cbn [map forallb]. now rewrite IH.
Qed.

Ltac safe_part :=
  repeat match goal with
    | |- Forall _ [] => constructor
    | |- Forall _ (_ :: _) => constructor
    | |- exists v, fst (Normal ?x, _) = Normal v /\ _ => exists x; split; [reflexivity|]
    end.

Lemma render_safe v :
  safe v = true ->
  exists r, convertJSONToHTML v = Normal r /\ safe r = true.
Proof.
  induction v as [| |b|n|s|items IH|props IH] using value_nested_ind; intros Hs.
  - now eexists.
  - now eexists.
  - destruct b; now eexists.
  - cbn [convertJSONToHTML]. destruct (negb (ToBoolean (JNumber n))); now eexists.
  - cbn [convertJSONToHTML]. destruct (negb (ToBoolean (JString s))); now eexists.
  - rewrite render_array. now apply render_joined_safe.
  - cbn [safe] in Hs. apply andb_prop in Hs. destruct Hs as [Hs Hall].
    apply andb_prop in Hs. destruct Hs as [_ Hty].
    assert (Hvals : Forall (fun v => safe v = true ->
                      exists r, convertJSONToHTML v = Normal r /\ safe r = true)
                      (values props))
      by (unfold values; apply Forall_map; exact IH).
    assert (Hsvals : forallb safe (values props) = true)
      by (rewrite forallb_values; exact Hall).
    assert (Hget : forall key,
               exists r, convertJSONToHTML (get key props) = Normal r /\ safe r = true).
    { intros key. clear Hty Hvals Hsvals.
      induction props as [|[k v] props IHp]; [now eexists|].
      inversion IH as [|? ? Hv Hrest]; subst.
      cbn [forallb snd] in Hall. apply andb_prop in Hall. destruct Hall as [Hsv Hsp].
      cbn [get]. destruct (JsString.eqb k key); [exact (Hv Hsv)|exact (IHp Hrest Hsp)]. }
    destruct (Hget (u16 "children")) as (c & Hc & Hcs).
    pose proof (safe_get (u16 "url") props Hall) as Hurl.
    pose proof (safe_get (u16 "alt") props Hall) as Halt.
    pose proof (safe_get (u16 "text") props Hall) as Htext.
    assert (Halt' : safe (or_else (get (u16 "alt") props) (JString [])) = true)
      by (unfold or_else; destruct (ToBoolean _); [exact Halt|reflexivity]).
    assert (Htext' : safe (or_else (get (u16 "text") props) (JString [])) = true)
      by (unfold or_else; destruct (ToBoolean _); [exact Htext|reflexivity]).
    cbn [convertJSONToHTML ToBoolean negb].
    rewrite with_prop_render, mapM_values, Hc.
    destruct (strict_eq_string _ (u16 "text")).
    { destruct (flag_step_safe (ToBoolean (get (u16 "bold") props))
                  (u16 "<strong>") (u16 "</strong>") _ Htext') as (t1 & -> & H1).
      cbn [bind].
      destruct (flag_step_safe (ToBoolean (get (u16 "italic") props))
                  (u16 "<em>") (u16 "</em>") _ H1) as (t2 & -> & H2).
      cbn [bind].
      destruct (flag_step_safe (ToBoolean (get (u16 "underline") props))
                  (u16 "<u>") (u16 "</u>") _ H2) as (t3 & -> & H3).
      cbn [bind].
      destruct (flag_step_safe (ToBoolean (get (u16 "code") props))
                  (u16 "<code>") (u16 "</code>") _ H3) as (t4 & -> & H4).
      cbn [bind]. now exists t4. }
    destruct (strict_eq_string _ (u16 "paragraph"));
      [apply template_value_safe; safe_part; exact Hcs|].
    assert (Hlevel : safe (heading_level (get (u16 "type") props)) = true).
    { unfold heading_level. destruct (get (u16 "type") props); try reflexivity.
      destruct (nth_error _ 1); reflexivity. }
    destruct (get (u16 "type") props) as [| | |?|ty| |] eqn:Ety; try discriminate Hty;
      cbn [optional_startsWith bind strict_eq_string].
    + destruct (ToBoolean (get (u16 "children") props)); [now exists c|].
      now apply render_joined_safe.
    + destruct (ToBoolean (get (u16 "children") props)); [now exists c|].
      now apply render_joined_safe.
    + repeat match goal with
        | |- context [if ?b then _ else _] => destruct b
        end;
        try (apply template_value_safe; safe_part; assumption);
        try (now exists c);
        now apply render_joined_safe.
Qed.

End NoThrow.

(** ** Balanced output *)

Section BalancedOutput.

Lemma eqb_refl s : JsString.eqb s s = true.
Proof. induction s as [|c s IH]; [reflexivity|]. cbn. now rewrite N.eqb_refl. Qed.

Lemma eqb_eq a : forall b, JsString.eqb a b = true -> a = b.
Proof.
  induction a as [|x a IH]; intros [|y b] H; try discriminate H; [reflexivity|].
  cbn in H. apply andb_prop in H. destruct H as [Hx Ha].
  apply N.eqb_eq in Hx. subst y. f_equal. now apply IH.
Qed.

Lemma neutral_nil : neutral [].
Proof. intros rest open. reflexivity. Qed.

Lemma neutral_app a b : neutral a -> neutral b -> neutral (a ++ b).
Proof. intros Ha Hb rest open. now rewrite <- app_assoc, Ha, Hb. Qed.

Lemma neutral_concat pieces : Forall neutral pieces -> neutral (concat pieces).
Proof.
  induction 1 as [|p pieces Hp _ IH]; [exact neutral_nil|].
  cbn [concat]. now apply neutral_app.
Qed.

Lemma neutral_plain s : plainText s = true -> neutral s.
Proof.
  induction s as [|c s IH]; intros H; [exact neutral_nil|].
  cbn [plainText forallb] in H. apply andb_prop in H. destruct H as [Hc Hs].
  apply negb_true_iff in Hc.
  intros rest open. cbn [app balancedFrom]. rewrite Hc. exact (IH Hs rest open).
Qed.

(** Scanning the body of a tag up to its [>]. *)
Lemma scan_tag body :
  attributeText body = true ->
  forall acc rest open,
    balancedFrom (body ++ 62%N :: rest) open (InTag acc)
    = match applyTag (rev acc ++ body) open with
      | Some open' => balancedFrom rest open' InText
      | None => false
      end.
Proof.
  induction body as [|c body IH]; intros H acc rest open.
  - cbn [app balancedFrom]. now rewrite app_nil_r.
  - cbn [attributeText forallb] in H. apply andb_prop in H. destruct H as [Hc Hb].
    apply negb_true_iff in Hc.
    cbn [app balancedFrom]. rewrite Hc, (IH Hb). cbn [rev].
    now rewrite <- app_assoc.
Qed.

Lemma neutral_element opening name html :
  attributeText opening = true ->
  attributeText name = true ->
  (forall open, applyTag opening open = Some (name :: open)) ->
  neutral html ->
  neutral (60%N :: opening ++ 62%N :: html ++ u16 "</" ++ name ++ u16 ">").
Proof.
  intros Ho Hn Hopen Hh rest open.
  cbn [app balancedFrom N.eqb Pos.eqb].
  rewrite <- app_assoc. cbn [app].
  rewrite (scan_tag opening Ho). cbn [rev app]. rewrite Hopen.
  rewrite <- app_assoc, Hh, <- !app_assoc.
  change (u16 "</" ++ name ++ u16 ">" ++ rest)
    with (60%N :: (47%N :: name) ++ 62%N :: rest).
  cbn [balancedFrom N.eqb Pos.eqb].
  rewrite (scan_tag (47%N :: name)) by (cbn [attributeText forallb]; exact Hn).
  cbn [rev app applyTag]. now rewrite eqb_refl.
Qed.

Lemma neutral_void body :
  attributeText body = true ->
  (forall open, applyTag body open = Some open) ->
  neutral (60%N :: body ++ [62%N]).
Proof.
  intros Hb Happly rest open.
  cbn [app balancedFrom N.eqb Pos.eqb].
  rewrite <- app_assoc. cbn [app].
  rewrite (scan_tag body Hb). cbn [rev app]. now rewrite Happly.
Qed.

Lemma endsWith_snoc s c d : endsWith (s ++ [c]) [d] = N.eqb c d.
Proof.
  unfold endsWith. rewrite rev_app_distr. cbn [rev app startsWith].
  rewrite startsWith_nil. apply andb_true_r.
Qed.

Lemma forallb_weaken {A} (p q : A -> bool) l :
  (forall a, p a = true -> q a = true) -> forallb p l = true -> forallb q l = true.
Proof.
  intros Hpq. induction l as [|a l IH]; [reflexivity|].
  cbn [forallb]. intros H. apply andb_prop in H. destruct H as [Ha Hl].
  now rewrite (Hpq a Ha), IH.
Qed.

Lemma tagName_no_space s :
  forallb (fun c => negb (N.eqb c 32)) s = true -> tagName s = s.
Proof.
  induction s as [|c s IH]; [reflexivity|].
  cbn [forallb tagName]. intros H. apply andb_prop in H. destruct H as [Hc Hs].
  apply negb_true_iff in Hc. now rewrite Hc, IH.
Qed.

Lemma digit_not_space c : isDigit c = true -> negb (N.eqb c 32) = true.
Proof.
  unfold isDigit. intros H. apply andb_prop in H. destruct H as [H _].
  apply N.leb_le in H. apply negb_true_iff, N.eqb_neq. lia.
Qed.

Lemma digit_not_gt c : isDigit c = true -> negb (N.eqb c 62) = true.
Proof.
  unfold isDigit. intros H. apply andb_prop in H. destruct H as [_ H].
  apply N.leb_le in H. apply negb_true_iff, N.eqb_neq. lia.
Qed.

Lemma digit_not_slash c : isDigit c = true -> N.eqb c 47 = false.
Proof.
  unfold isDigit. intros H. apply andb_prop in H. destruct H as [H _].
  apply N.leb_le in H. apply N.eqb_neq. lia.
Qed.

(** A heading tag is pushed as it stands. *)
Lemma applyTag_heading level open :
  isHeadingTag (104%N :: level) = true ->
  applyTag (104%N :: level) open = Some ((104%N :: level) :: open).
Proof.
  intros H. pose proof H as H0.
  cbn [isHeadingTag] in H. apply andb_prop in H. destruct H as [Hne Hd].
  assert (Hname : tagName (104%N :: level) = 104%N :: level).
  { apply tagName_no_space. cbn [forallb]. cbn [N.eqb Pos.eqb negb andb].
    exact (forallb_weaken _ _ level digit_not_space Hd). }
  assert (Hend : endsWith (104%N :: level) (u16 "/") = false).
  { destruct (rev level) as [|c l] eqn:E.
    - apply (f_equal (@rev _)) in E. rewrite rev_involutive in E. subst level.
      discriminate Hne.
    - apply (f_equal (@rev _)) in E. rewrite rev_involutive in E. cbn [rev] in E.
      subst level. rewrite app_comm_cons.
      change (u16 "/") with [47%N]. rewrite endsWith_snoc.
      apply digit_not_slash.
      rewrite forallb_app in Hd. apply andb_prop in Hd. destruct Hd as [_ Hc].
      cbn [forallb] in Hc. now apply andb_prop in Hc. }
  unfold applyTag. rewrite Hend, Hname.
  unfold isPairedTag. rewrite H0, orb_true_r. reflexivity.
Qed.

Lemma neutral_heading level html :
  isHeadingTag (104%N :: level) = true ->
  neutral html ->
  neutral (u16 "<h" ++ level ++ u16 ">" ++ html ++ u16 "</h" ++ level ++ u16 ">").
Proof.
  intros H Hh.
  assert (Hattr : attributeText (104%N :: level) = true).
  { cbn [isHeadingTag] in H. apply andb_prop in H. destruct H as [_ Hd].
    cbn [attributeText forallb]. cbn [N.eqb Pos.eqb negb andb].
    exact (forallb_weaken _ _ level digit_not_gt Hd). }
  exact (@neutral_element (104%N :: level) (104%N :: level) html Hattr Hattr
           (fun open => applyTag_heading level open H) Hh).
Qed.

(** The six wrappers and the four formats. *)
Lemma neutral_simple tag html :
  In tag ["strong"; "em"; "u"; "code"; "p"; "ul"; "ol"; "li"; "blockquote"; "pre"] ->
  neutral html ->
  neutral (u16 "<" ++ u16 tag ++ u16 ">" ++ html ++ u16 "</" ++ u16 tag ++ u16 ">").
Proof.
  intros Hin Hh. cbn [In] in Hin.
  repeat (destruct Hin as [<-|Hin];
          [match goal with
           | |- neutral (_ ++ u16 ?t ++ _) =>
               exact (@neutral_element (u16 t) (u16 t) html eq_refl eq_refl
                        (fun open => eq_refl) Hh)
           end|]).
  destruct Hin.
Qed.

Lemma neutral_wrap b tag html :
  In tag ["strong"; "em"; "u"; "code"] ->
  neutral html -> neutral (wrap b tag html).
Proof.
  intros Hin Hh. destruct b; [|exact Hh].
  apply neutral_simple; [|exact Hh]. cbn [In] in *. tauto.
Qed.

Lemma neutral_link url html :
  attributeText url = true ->
  neutral html ->
  neutral (u16 "<a href=" ++ dquote ++ url ++ dquote ++ u16 ">" ++ html ++ u16 "</a>").
Proof.
  intros Hu Hh.
  assert (Hattr : attributeText (u16 "a href=" ++ dquote ++ url ++ dquote) = true).
  { unfold attributeText in *. rewrite !forallb_app.
    repeat (apply andb_true_iff; split); try reflexivity; assumption. }
  assert (Happly : forall open,
             applyTag (u16 "a href=" ++ dquote ++ url ++ dquote) open
             = Some (u16 "a" :: open)).
  { intros open.
    assert (Hend : endsWith (u16 "a href=" ++ dquote ++ url ++ dquote) (u16 "/") = false).
    { rewrite !app_assoc. exact (endsWith_snoc _ 34%N 47%N). }
    change (applyTag (u16 "a href=" ++ dquote ++ url ++ dquote) open)
      with (if endsWith (u16 "a href=" ++ dquote ++ url ++ dquote) (u16 "/")
            then (if JsString.eqb (u16 "a") (u16 "img") then Some open else None)
            else Some (u16 "a" :: open)).
    now rewrite Hend. }
  pose proof (@neutral_element _ (u16 "a") html Hattr eq_refl Happly Hh) as N.
  match type of N with
  | neutral ?l =>
      replace l with (u16 "<a href=" ++ dquote ++ url ++ dquote ++ u16 ">" ++ html
                      ++ u16 "</a>") in N
        by (rewrite <- !app_assoc; reflexivity)
  end.
  exact N.
Qed.

Lemma neutral_image url alt :
  attributeText url = true ->
  attributeText alt = true ->
  neutral (u16 "<img src=" ++ dquote ++ url ++ dquote ++ u16 " alt=" ++ dquote
           ++ alt ++ dquote ++ u16 " />").
Proof.
  intros Hu Ha.
  set (body := u16 "img src=" ++ dquote ++ url ++ dquote ++ u16 " alt=" ++ dquote
               ++ alt ++ dquote ++ u16 " /").
  assert (Hattr : attributeText body = true).
  { unfold body, attributeText in *. rewrite !forallb_app.
    repeat (apply andb_true_iff; split); try reflexivity; assumption. }
  assert (Happly : forall open, applyTag body open = Some open).
  { intros open.
    assert (Hend : endsWith body (u16 "/") = true).
    { unfold body. change (u16 " /") with ([32%N] ++ [47%N]).
      rewrite !app_assoc. exact (endsWith_snoc _ 47%N 47%N). }
    change (applyTag body open)
      with (if endsWith body (u16 "/")
            then (if JsString.eqb (u16 "img") (u16 "img") then Some open else None)
            else (if isPairedTag (u16 "img") then Some (u16 "img" :: open) else None)).
    now rewrite Hend. }
  pose proof (neutral_void body Hattr Happly) as N. unfold body in N.
  match type of N with
  | neutral ?l =>
      replace l with (u16 "<img src=" ++ dquote ++ url ++ dquote ++ u16 " alt=" ++ dquote
                      ++ alt ++ dquote ++ u16 " />") in N
        by (rewrite <- !app_assoc; reflexivity)
  end.
  exact N.
Qed.

End BalancedOutput.

(** ** Well-formed documents *)

Section WellFormedDocuments.

Lemma render_text_node props s :
  get (u16 "type") props = JString (u16 "text") ->
  or_else (get (u16 "text") props) (JString []) = JString s ->
  convertJSONToHTML (JObject props) =
  Normal (JString (wrap (flag "code" props) "code"
                  (wrap (flag "underline" props) "u"
                  (wrap (flag "italic" props) "em"
                  (wrap (flag "bold" props) "strong" s))))).
Proof.
  intros Ht Hs. unfold flag.
  cbn [convertJSONToHTML ToBoolean negb].
  rewrite Ht, Hs.
  change (strict_eq_string (JString (u16 "text")) (u16 "text")) with true.
  cbv iota.
  destruct (ToBoolean (get (u16 "bold") props)),
           (ToBoolean (get (u16 "italic") props)),
           (ToBoolean (get (u16 "underline") props)),
           (ToBoolean (get (u16 "code") props)); reflexivity.
Qed.

Lemma template_value_two head a sa middle c s after :
  ToString a = Normal sa ->
  ToString c = Normal s ->
  template_value head [(Normal a, middle); (Normal c, after)]
  = Normal (JString (head ++ sa ++ middle ++ s ++ after)).
Proof.
  intros Ha Hc. unfold template_value. cbn [template bind].
  rewrite Ha. cbn [bind]. rewrite Hc. reflexivity.
Qed.

Lemma render_link_node props url c s :
  get (u16 "type") props = JString (u16 "link") ->
  convertJSONToHTML (get (u16 "children") props) = Normal c ->
  ToString (get (u16 "url") props) = Normal url ->
  ToString c = Normal s ->
  convertJSONToHTML (JObject props)
  = Normal (JString (u16 "<a href=" ++ dquote ++ url ++ dquote ++ u16 ">" ++ s
                     ++ u16 "</a>")).
Proof.
  intros Hty Hc Hu Hs.
  cbn [convertJSONToHTML ToBoolean negb].
  rewrite Hty, with_prop_render, Hc.
  exact (template_value_two _ _ _ _ _ Hu Hs).
Qed.

Lemma render_image_node props url alt :
  get (u16 "type") props = JString (u16 "image") ->
  ToString (get (u16 "url") props) = Normal url ->
  ToString (or_else (get (u16 "alt") props) (JString [])) = Normal alt ->
  convertJSONToHTML (JObject props)
  = Normal (JString (u16 "<img src=" ++ dquote ++ url ++ dquote ++ u16 " alt=" ++ dquote
                     ++ alt ++ dquote ++ u16 " />")).
Proof.
  intros Hty Hu Ha.
  cbn [convertJSONToHTML ToBoolean negb].
  rewrite Hty.
  exact (template_value_two _ _ _ _ _ Hu Ha).
Qed.

Lemma with_prop_wellFormed key props :
  with_prop wellFormed true key props = wellFormed (get key props).
Proof.
  induction props as [|[k v] props IH]; [reflexivity|].
  cbn [with_prop get]. destruct (JsString.eqb k key); [reflexivity|exact IH].
Qed.

Lemma startsWith_split prefix :
  forall s, startsWith s prefix = true -> s = prefix ++ skipn (length prefix) s.
Proof.
  induction prefix as [|p prefix IH]; intros s H; [reflexivity|].
  destruct s as [|c s]; [discriminate H|].
  cbn [startsWith] in H. apply andb_prop in H. destruct H as [Hc Hs].
  apply N.eqb_eq in Hc. subst c. cbn [length skipn app]. f_equal. now apply IH.
Qed.

Lemma neutral_wrapper type opening closing html :
  In (type, (opening, closing)) wrappers ->
  neutral html -> neutral (u16 opening ++ html ++ u16 closing).
Proof.
  intros Hin Hn.
  assert (Hs : forall tag,
             In tag ["strong"; "em"; "u"; "code"; "p"; "ul"; "ol"; "li";
                     "blockquote"; "pre"] ->
             forall h, neutral h ->
             neutral (u16 "<" ++ u16 tag ++ u16 ">" ++ h ++ u16 "</" ++ u16 tag ++ u16 ">"))
    by (intros tag Ht h Hh; now apply neutral_simple).
  unfold wrappers in Hin. cbn [In] in Hin.
  destruct Hin as [Hin|[Hin|[Hin|[Hin|[Hin|[Hin|[]]]]]]]; injection Hin as <- <- <-.
  - exact (Hs "p" ltac:(cbn [In]; tauto) html Hn).
  - exact (Hs "ul" ltac:(cbn [In]; tauto) html Hn).
  - exact (Hs "ol" ltac:(cbn [In]; tauto) html Hn).
  - exact (Hs "li" ltac:(cbn [In]; tauto) html Hn).
  - exact (Hs "blockquote" ltac:(cbn [In]; tauto) html Hn).
  - pose proof (Hs "pre" ltac:(cbn [In]; tauto) _
                  (Hs "code" ltac:(cbn [In]; tauto) html Hn)) as N.
    match type of N with
    | neutral ?l =>
        replace l with (u16 "<pre><code>" ++ html ++ u16 "</code></pre>") in N
          by (rewrite <- !app_assoc; reflexivity)
    end.
    exact N.
Qed.

Lemma render_all_neutral items :
  Forall (fun v => wellFormed v = true ->
                   exists html, convertJSONToHTML v = Normal (JString html)
                                /\ neutral html) items ->
  forallb wellFormed items = true ->
  exists pieces,
    mapM convertJSONToHTML items = Normal (map JString pieces)
    /\ Forall neutral pieces.
Proof.
  induction 1 as [|v items Hv _ IH]; intros Hw; [now exists []|].
  cbn [forallb] in Hw. apply andb_prop in Hw. destruct Hw as [Hwv Hwi].
  destruct (Hv Hwv) as (h & Hh & Hn). destruct (IH Hwi) as (ps & Hps & Hns).
  exists (h :: ps). cbn [mapM map]. rewrite Hh. cbn [bind]. rewrite Hps.
  split; [reflexivity|]. now constructor.
Qed.

Lemma wellFormed_neutral v :
  wellFormed v = true ->
  exists html, convertJSONToHTML v = Normal (JString html) /\ neutral html.
Proof.
  induction v as [| |b|n|s|items IH|props IH] using value_nested_ind;
    intros Hw; try discriminate Hw.
  - exists []. split; [reflexivity|exact neutral_nil].
  - exists []. split; [reflexivity|exact neutral_nil].
  - cbn [wellFormed] in Hw.
    destruct (render_all_neutral IH Hw) as (ps & Hps & Hns).
    exists (concat ps). rewrite render_array, Hps. cbn [bind].
    rewrite join_values_strings. split; [reflexivity|now apply neutral_concat].
  - cbn [wellFormed] in Hw. rewrite with_prop_wellFormed in Hw.
    assert (Hch : wellFormed (get (u16 "children") props) = true ->
                  exists html,
                    convertJSONToHTML (get (u16 "children") props) = Normal (JString html)
                    /\ neutral html).
    { clear Hw. generalize (u16 "children") as key. intros key.
      induction props as [|[k v] props IHp].
      - intros _. exists []. split; [reflexivity|exact neutral_nil].
      - inversion IH as [|? ? Hv Hrest]; subst. cbn [get].
        destruct (JsString.eqb k key); [exact Hv|exact (IHp Hrest)]. }
    destruct (get (u16 "type") props) as [| | |?|type| |] eqn:Ety; try discriminate Hw.
    destruct (JsString.eqb type (u16 "text")) eqn:Etext.
    { apply eqb_eq in Etext. subst type.
      assert (exists s, or_else (get (u16 "text") props) (JString []) = JString s
                        /\ plainText s = true) as (s & Hs & Hp).
      { destruct (get (u16 "text") props) as [| | |?|s| |]; try discriminate Hw.
        - now exists [].
        - exists s. split; [destruct s; reflexivity|exact Hw]. }
      rewrite (render_text_node props Ety Hs). eexists. split; [reflexivity|].
      repeat (apply neutral_wrap; [cbn [In]; tauto|]). now apply neutral_plain. }
    destruct (existsb (JsString.eqb type) wrapperTypes) eqn:Ewrap.
    { destruct (Hch Hw) as (html & Hhtml & Hn).
      apply existsb_exists in Ewrap. destruct Ewrap as (w & Hin & Ew).
      apply eqb_eq in Ew. subst w.
      unfold wrapperTypes in Hin. apply in_map_iff in Hin.
      destruct Hin as ([ty [op cl]] & Eqty & Hin). cbn [fst] in Eqty. subst type.
      exists (u16 op ++ html ++ u16 cl). split.
      - exact (@render_wrapper_node props ty op cl _ _ Hin Ety Hhtml eq_refl).
      - exact (@neutral_wrapper ty op cl html Hin Hn). }
    destruct (startsWith type (u16 "heading-")) eqn:Ehead.
    { apply andb_prop in Hw. destruct Hw as [Hlevel Hw].
      destruct (Hch Hw) as (html & Hhtml & Hn).
      apply startsWith_split in Ehead.
      change (length (u16 "heading-")) with 8 in Ehead.
      rewrite Ehead in Ety.
      eexists. split.
      - exact (@render_heading_node props _ _ _ Ety Hhtml eq_refl).
      - now apply neutral_heading. }
    destruct (JsString.eqb type (u16 "link")) eqn:Elink.
    { apply eqb_eq in Elink. subst type.
      destruct (get (u16 "url") props) as [| | |?|url| |] eqn:Eurl; try discriminate Hw.
      apply andb_prop in Hw. destruct Hw as [Hurl Hw].
      destruct (Hch Hw) as (html & Hhtml & Hn).
      eexists. split.
      - apply (@render_link_node props url (JString html) html Ety Hhtml); [rewrite Eurl|]; reflexivity.
      - now apply neutral_link. }
    destruct (JsString.eqb type (u16 "image")) eqn:Eimage; [|discriminate Hw].
    apply eqb_eq in Eimage. subst type.
    destruct (get (u16 "url") props) as [| | |?|url| |] eqn:Eurl; try discriminate Hw.
    assert (exists alt, or_else (get (u16 "alt") props) (JString []) = JString alt
                        /\ attributeText url = true /\ attributeText alt = true)
      as (alt & Halt & Hu & Ha).
    { destruct (get (u16 "alt") props) as [| | |?|alt| |]; try discriminate Hw.
      - exists []. split; [reflexivity|]. split; [exact Hw|reflexivity].
      - apply andb_prop in Hw. destruct Hw as [Hu Ha].
        exists alt. split; [destruct alt; reflexivity|now split]. }
    eexists. split.
    + apply (@render_image_node props url alt Ety); [rewrite Eurl|rewrite Halt]; reflexivity.
    + now apply neutral_image.
Qed.

End WellFormedDocuments.

(** ** The splitter's loops and passes *)

Section SplitterLoops.

Lemma pushSignature_map lines :
  forall content, pushSignature lines content = content ++ map paragraphNode lines.
Proof.
  induction lines as [|l lines IH]; intros content; cbn [pushSignature map].
  - now rewrite app_nil_r.
  - rewrite IH, <- app_assoc. reflexivity.
Qed.

Lemma pushParagraphs_intersperse paragraphs :
  forall index count content,
    count = index + length paragraphs ->
    pushParagraphs paragraphs index count content
    = content ++ intersperse spacerNode (map paragraphNode paragraphs).
Proof.
  induction paragraphs as [|p rest IH]; intros index count content Hc.
  - cbn. now rewrite app_nil_r.
  - cbn [pushParagraphs]. cbn [length] in Hc.
    rewrite (IH (S index) count) by lia.
    destruct rest as [|q rest].
    + replace (index <? count - 1) with false
        by (symmetry; apply Nat.ltb_ge; cbn [length] in Hc; lia).
      cbn [map intersperse]. now rewrite app_nil_r.
    + replace (index <? count - 1) with true
        by (symmetry; apply Nat.ltb_lt; cbn [length] in Hc; lia).
      cbn [map intersperse]. rewrite <- !app_assoc. reflexivity.
Qed.

Lemma slice_last_length {A} n (l : list A) : length (slice_last n l) <= n.
Proof. unfold slice_last. rewrite length_skipn. lia. Qed.

Lemma filter_length_le {A} (p : A -> bool) l : length (filter p l) <= length l.
Proof.
  induction l as [|a l IH]; [reflexivity|].
  cbn [filter]. destruct (p a); cbn [length]; lia.
Qed.

Lemma Forall_filter_true {A} (p : A -> bool) l :
  Forall (fun a => p a = true) (filter p l).
Proof. apply Forall_forall. intros a H. now apply filter_In in H. Qed.

Lemma In_slice_last {A} n (l : list A) a : In a (slice_last n l) -> In a l.
Proof.
  unfold slice_last. intros H. rewrite <- (firstn_skipn (length l - n) l).
  apply in_or_app. now right.
Qed.

End SplitterLoops.

(** ** Trimming *)

Section Trimming.

Lemma trimStart_no_space c s :
  isWhiteSpace c = false -> trimStart (c :: s) = c :: s.
Proof. intros H. cbn [trimStart]. now rewrite H. Qed.

Lemma trimStart_idempotent s : trimStart (trimStart s) = trimStart s.
Proof.
  induction s as [|c s IH]; [reflexivity|].
  cbn [trimStart]. destruct (isWhiteSpace c) eqn:E; [exact IH|].
  now apply trimStart_no_space.
Qed.

Lemma trimEnd_idempotent s : trimEnd (trimEnd s) = trimEnd s.
Proof. unfold trimEnd. now rewrite rev_involutive, trimStart_idempotent. Qed.

Lemma trimStart_snoc c l :
  isWhiteSpace c = false -> exists y, trimStart (l ++ [c]) = y ++ [c].
Proof.
  intros H. induction l as [|d l [y IH]].
  - exists []. cbn. now rewrite H.
  - cbn [app trimStart]. destruct (isWhiteSpace d).
    + now exists y.
    + now exists (d :: l).
Qed.

Lemma trimStart_trimEnd s :
  trimStart (trimEnd (trimStart s)) = trimEnd (trimStart s).
Proof.
  destruct (trimStart s) as [|c x] eqn:E; [reflexivity|].
  assert (Hc : isWhiteSpace c = false).
  { clear -E. induction s as [|d s IH]; [discriminate E|].
    cbn [trimStart] in E. destruct (isWhiteSpace d) eqn:Ed; [now apply IH|].
    injection E as -> _. exact Ed. }
  unfold trimEnd. cbn [rev].
  destruct (@trimStart_snoc c (rev x) Hc) as [y Hy]. rewrite Hy.
  rewrite rev_app_distr. cbn [rev app]. now apply trimStart_no_space.
Qed.

Lemma trim_idempotent s : trim (trim s) = trim s.
Proof.
  unfold trim. now rewrite trimStart_trimEnd, trimEnd_idempotent.
Qed.

(** Trimming keeps a property all code units have. *)
Lemma Forall_trimStart (P : char16 -> Prop) s : Forall P s -> Forall P (trimStart s).
Proof.
  induction 1 as [|c s Hc Hs IH]; [constructor|].
  cbn [trimStart]. destruct (isWhiteSpace c); [exact IH|now constructor].
Qed.

Lemma Forall_trim (P : char16 -> Prop) s : Forall P s -> Forall P (trim s).
Proof.
  intros H. unfold trim, trimEnd.
  apply Forall_rev, Forall_trimStart, Forall_rev, Forall_trimStart, H.
Qed.

Lemma trimStart_fixed c s : trimStart (c :: s) = c :: s -> isWhiteSpace c = false.
Proof.
  cbn [trimStart]. destruct (isWhiteSpace c); [|reflexivity].
  intros H. exfalso.
  assert (L : forall l : jsstring, length (trimStart l) <= length l).
  { induction l as [|d l IH]; [reflexivity|].
    cbn [trimStart]. destruct (isWhiteSpace d); cbn [length]; lia. }
  specialize (L s). rewrite H in L. cbn [length] in L. lia.
Qed.

End Trimming.

(** ** Patterns that need a line feed *)

Section NeedsLineFeed.

Variable input : jsstring.

Lemma run_seqs_cons r rs k i :
  run input (seqs (r :: rs)) k i = run input r (run input (seqs rs) k) i.
Proof. destruct rs; reflexivity. Qed.

(** A match of a sequence runs through each of its members. *)
Lemma run_seqs_member before r after :
  forall k i e,
    run input (seqs (before ++ r :: after)) k i = Some e ->
    exists j, run input r (run input (seqs after) k) j = Some e.
Proof.
  induction before as [|a before IH]; intros k i e H.
  - cbn [app] in H. rewrite run_seqs_cons in H. now exists i.
  - cbn [app] in H. rewrite run_seqs_cons in H.
    apply run_continuation in H. destruct H as [j H]. exact (IH k j e H).
Qed.

Lemma run_char p k i e :
  run input (Char p) k i = Some e ->
  exists c, nth_error input i = Some c /\ p c = true.
Proof.
  cbn [run]. destruct (nth_error input i) as [c|]; [|discriminate].
  destruct (p c) eqn:E; [|discriminate]. intros _. now exists c.
Qed.

Lemma run_newline_in k i e :
  run input newline k i = Some e -> In 10%N input.
Proof.
  intros H. apply run_char in H. destruct H as (c & Hc & Hp).
  apply N.eqb_eq in Hp. subst c. exact (nth_error_In _ _ Hc).
Qed.

Lemma newlines_needs_line_feed i e :
  matchAt input newlines i = Some e -> In 10%N input.
Proof. unfold matchAt, newlines, Plus. cbn [run]. apply run_newline_in. Qed.

Lemma blankLine_needs_line_feed i e :
  matchAt input blankLine i = Some e -> In 10%N input.
Proof. unfold matchAt, blankLine. cbn [seqs run]. apply run_newline_in. Qed.

Lemma signOffPattern_needs_line_feed i e :
  matchAt input signOffPattern i = Some e -> In 10%N input.
Proof.
  unfold matchAt, signOffPattern. intros H.
  match type of H with
  | context [seqs (?a :: ?b :: ?c :: ?d :: ?r :: ?rest)] =>
      change (seqs (a :: b :: c :: d :: r :: rest))
        with (seqs ([a; b; c; d] ++ r :: rest)) in H
  end.
  apply run_seqs_member in H. destruct H as [j H].
  unfold Plus in H. cbn [run] in H. exact (run_newline_in _ _ H).
Qed.

Lemma search_none r :
  (forall i, matchAt input r i = None) ->
  forall fuel i, search input r fuel i = None.
Proof.
  intros Hn. induction fuel as [|fuel IH]; intros i; cbn [search]; rewrite Hn;
    [reflexivity|apply IH].
Qed.

Lemma split_loop_none r :
  (forall i, matchAt input r i = None) ->
  forall fuel p q, split_loop input r fuel p q = [substring input p (length input)].
Proof.
  intros Hn. induction fuel as [|fuel IH]; intros p q; cbn [split_loop]; [reflexivity|].
  destruct (length input <=? q); [reflexivity|]. rewrite Hn. apply IH.
Qed.

Lemma String_split_none r :
  (forall i, matchAt input r i = None) -> String_split input r = [input].
Proof.
  intros Hn. unfold String_split. rewrite Hn.
  destruct (length input =? 0); [reflexivity|].
  rewrite (@split_loop_none r Hn). unfold substring. cbn [skipn].
  now rewrite Nat.sub_0_r, firstn_all.
Qed.

Lemma no_match_without_line_feed r :
  (forall i e, matchAt input r i = Some e -> In 10%N input) ->
  ~ In 10%N input -> forall i, matchAt input r i = None.
Proof.
  intros H Hno i. destruct (matchAt input r i) as [e|] eqn:E; [|reflexivity].
  exfalso. exact (Hno (H i e E)).
Qed.

End NeedsLineFeed.

(** ** Searching for a code unit *)

Section CodeUnitSearch.

Lemma includes_unit_true c s : In c s -> includes s [c] = true.
Proof.
  induction s as [|d s IH]; intros H; [destruct H|].
  cbn [includes startsWith]. rewrite startsWith_nil, andb_true_r.
  destruct H as [->|H]; [now rewrite N.eqb_refl|].
  rewrite (IH H). apply orb_true_r.
Qed.

Lemma includes_unit_false c s : ~ In c s -> includes s [c] = false.
Proof.
  induction s as [|d s IH]; intros H; [reflexivity|].
  cbn [includes startsWith]. rewrite startsWith_nil, andb_true_r.
  rewrite IH by (intros Hin; apply H; now right).
  rewrite orb_false_r. apply N.eqb_neq. intros ->. apply H. now left.
Qed.

Lemma indexOf_from_unit c before after :
  ~ In c before ->
  forall i, indexOf_from (before ++ c :: after) [c] i = Z.of_nat (i + length before).
Proof.
  induction before as [|d before IH]; intros H i.
  - cbn [app indexOf_from startsWith length]. rewrite N.eqb_refl, startsWith_nil.
    cbn [andb]. f_equal. lia.
  - cbn [app indexOf_from startsWith length]. rewrite startsWith_nil, andb_true_r.
    replace (N.eqb d c) with false
      by (symmetry; apply N.eqb_neq; intros ->; apply H; now left).
    rewrite IH by (intros Hin; apply H; now right). f_equal. lia.
Qed.

Lemma lastIndexOf_from_bounds s needle i :
  (-1 <= lastIndexOf_from s needle i <= Z.of_nat i)%Z.
Proof.
  induction i as [|i IH]; cbn [lastIndexOf_from];
    destruct (startsWith _ needle); lia.
Qed.

Lemma slice_prefix_length s stop :
  (0 <= stop)%Z -> (Z.of_nat (length (slice s 0 stop)) <= stop)%Z.
Proof.
  intros H. unfold slice, relativeIndex.
  replace (0 <? 0)%Z with false by reflexivity.
  replace (stop <? 0)%Z with false by (symmetry; apply Z.ltb_ge; exact H).
  cbn [Z.to_nat Nat.min skipn]. rewrite Nat.sub_0_r, length_firstn. lia.
Qed.

Lemma skipn_length_app {A} (a b : list A) : skipn (length a) (a ++ b) = b.
Proof. induction a as [|x a IH]; [reflexivity|exact IH]. Qed.

End CodeUnitSearch.

(** ** Global replacement *)

Section GlobalReplace.

Lemma nth_error_at_length {A} (pre : list A) c suf :
  nth_error (pre ++ c :: suf) (length pre) = Some c.
Proof. induction pre as [|x pre IH]; [reflexivity|exact IH]. Qed.

Lemma nth_error_past {A} (l : list A) i : length l <= i -> nth_error l i = None.
Proof. intros H. now apply nth_error_None. Qed.

Lemma snoc_app {A} (pre : list A) c suf : (pre ++ [c]) ++ suf = pre ++ c :: suf.
Proof. now rewrite <- app_assoc. Qed.

(** A list splits at the first element satisfying [p], if there is one. *)
Lemma first_match (p : char16 -> bool) s :
  Forall (fun c => p c = false) s
  \/ exists a c b, s = a ++ c :: b /\ Forall (fun c => p c = false) a /\ p c = true.
Proof.
  induction s as [|d s IH]; [left; constructor|].
  destruct (p d) eqn:E.
  - right. exists [], d, s. repeat split; [constructor|exact E].
  - destruct IH as [IH|(a & c & b & -> & Ha & Hc)].
    + left. now constructor.
    + right. exists (d :: a), c, b. repeat split; [now constructor|exact Hc].
Qed.

(** A list splits after its longest prefix satisfying [p]. *)
Lemma longest_run (p : char16 -> bool) s :
  exists a rest,
    s = a ++ rest /\ Forall (fun c => p c = true) a
    /\ match rest with [] => True | c :: _ => p c = false end.
Proof.
  induction s as [|d s (a & rest & -> & Ha & Hr)].
  - exists [], []. repeat split. constructor.
  - destruct (p d) eqn:E.
    + exists (d :: a), rest. repeat split; [now constructor|exact Hr].
    + exists [], (d :: a ++ rest). repeat split; [constructor|exact E].
Qed.

Variable p : char16 -> bool.

Lemma matchAt_char input i :
  matchAt input (Char p) i
  = match nth_error input i with
    | Some c => if p c then Some (S i) else None
    | None => None
    end.
Proof. reflexivity. Qed.

Lemma star_loop_run a :
  forall pre rest fuel,
    Forall (fun c => p c = true) a ->
    match rest with [] => True | c :: _ => p c = false end ->
    length a <= fuel ->
    star_loop (pre ++ a ++ rest) (Char p) Some fuel (length pre)
    = Some (length pre + length a).
Proof.
  induction a as [|d a IH]; intros pre rest fuel Ha Hr Hf.
  - cbn [app length]. rewrite Nat.add_0_r.
    destruct fuel as [|fuel]; [reflexivity|].
    cbn [star_loop run].
    destruct rest as [|c rest].
    + now rewrite nth_error_past by (rewrite app_nil_r; lia).
    + now rewrite nth_error_at_length, Hr.
  - inversion Ha as [|? ? Hd Ha']; subst.
    destruct fuel as [|fuel]; [cbn [length] in Hf; lia|].
    cbn [star_loop run]. cbn [app]. rewrite nth_error_at_length, Hd.
    replace (length pre <? S (length pre)) with true
      by (symmetry; apply Nat.ltb_lt; lia).
    pose proof (IH (pre ++ [d]) rest fuel Ha' Hr ltac:(cbn [length] in Hf; lia)) as E.
    rewrite snoc_app, length_app in E. cbn [length] in E.
    replace (length pre + 1) with (S (length pre)) in E by lia.
    fold (star_loop (pre ++ d :: a ++ rest) (Char p) Some).
    rewrite E. f_equal. cbn [length]. lia.
Qed.

(** At a code unit satisfying [p], [p+] matches the longest run. *)
Lemma matchAt_plus_run pre c a rest :
  p c = true ->
  Forall (fun c => p c = true) a ->
  match rest with [] => True | c :: _ => p c = false end ->
  matchAt (pre ++ c :: a ++ rest) (Plus (Char p)) (length pre)
  = Some (S (length pre + length a)).
Proof.
  intros Hc Ha Hr. unfold matchAt, Plus. cbn [run].
  rewrite nth_error_at_length, Hc.
  change (star_loop (pre ++ c :: a ++ rest) (Char p) Some
            (S (length (pre ++ c :: a ++ rest) - S (length pre))) (S (length pre))
          = Some (S (length pre + length a))).
  assert (Hf : length a <= S (length (pre ++ c :: a ++ rest) - S (length pre)))
    by (rewrite !length_app; cbn [length]; rewrite length_app; lia).
  revert Hf. generalize (S (length (pre ++ c :: a ++ rest) - S (length pre))) as fuel.
  intros fuel Hf.
  pose proof (@star_loop_run a (pre ++ [c]) rest fuel Ha Hr Hf) as E.
  rewrite snoc_app, length_app in E. cbn [length] in E.
  replace (length pre + 1) with (S (length pre)) in E by lia.
  rewrite E. reflexivity || (f_equal; lia).
Qed.

Lemma matchAt_plus_fail input i :
  match nth_error input i with Some c => p c = false | None => True end ->
  matchAt input (Plus (Char p)) i = None.
Proof.
  intros H. unfold matchAt, Plus. cbn [run].
  destruct (nth_error input i) as [c|]; [now rewrite H|reflexivity].
Qed.

End GlobalReplace.

Section GlobalReplaceLoop.

Variable p : char16 -> bool.
Variable r : regex.

(** What the two patterns replaced globally have in common: no match
    starts at a code unit that fails [p], or past the end. *)
Hypothesis r_fails :
  forall input i,
    match nth_error input i with Some c => p c = false | None => True end ->
    matchAt input r i = None.

Lemma search_past_end input fuel :
  forall i, length input <= i -> search input r fuel i = None.
Proof.
  induction fuel as [|fuel IH]; intros i Hi; cbn [search];
    rewrite r_fails by (now rewrite nth_error_past); [reflexivity|].
  apply IH. lia.
Qed.

Lemma search_skips n :
  forall pre rest fuel,
    Forall (fun c => p c = false) n ->
    length n <= fuel ->
    search (pre ++ n ++ rest) r fuel (length pre)
    = search (pre ++ n ++ rest) r (fuel - length n) (length pre + length n).
Proof.
  induction n as [|d n IH]; intros pre rest fuel Hn Hf.
  - cbn [app length]. now rewrite Nat.sub_0_r, Nat.add_0_r.
  - inversion Hn as [|? ? Hd Hn']; subst.
    destruct fuel as [|fuel]; [cbn [length] in Hf; lia|].
    cbn [search]. rewrite r_fails by (cbn [app]; now rewrite nth_error_at_length).
    pose proof (IH (pre ++ [d]) rest fuel Hn' ltac:(cbn [length] in Hf; lia)) as E.
    rewrite snoc_app, length_app in E. cbn [length] in E.
    replace (length pre + 1) with (S (length pre)) in E by lia.
    cbn [app length]. rewrite E. f_equal. lia.
Qed.

Lemma search_no_hit pre n fuel :
  Forall (fun c => p c = false) n ->
  search (pre ++ n) r fuel (length pre) = None.
Proof.
  intros Hn. destruct (Nat.le_gt_cases (length n) fuel) as [Hf|Hf].
  - pose proof (@search_skips n pre [] fuel Hn Hf) as E.
    rewrite app_nil_r in E. rewrite E.
    apply search_past_end. rewrite length_app. lia.
  - revert pre n Hn Hf. induction fuel as [|fuel IH]; intros pre n Hn Hf.
    + destruct n as [|d n]; [cbn [length] in Hf; lia|].
      inversion Hn; subst. cbn [search].
      now rewrite r_fails by (now rewrite nth_error_at_length).
    + destruct n as [|d n]; [cbn [length] in Hf; lia|].
      inversion Hn; subst. cbn [search].
      rewrite r_fails by (now rewrite nth_error_at_length).
      rewrite <- snoc_app.
      replace (S (length pre)) with (length (pre ++ [d]))
        by (rewrite length_app; cbn [length]; lia).
      apply IH; [assumption|cbn [length] in Hf; lia].
Qed.

(** The first match, when the code unit after the skipped ones starts one
    that ends at [stop]. *)
Lemma search_hit pre n rest stop fuel :
  Forall (fun c => p c = false) n ->
  length n <= fuel ->
  matchAt (pre ++ n ++ rest) r (length pre + length n) = Some stop ->
  search (pre ++ n ++ rest) r fuel (length pre)
  = Some {| index := length pre + length n; endIndex := stop |}.
Proof.
  intros Hn Hf Hm. rewrite (search_skips pre rest Hn Hf).
  destruct (fuel - length n); cbn [search]; now rewrite Hm.
Qed.

Lemma substring_middle pre n rest :
  substring (pre ++ n ++ rest) (length pre) (length pre + length n) = n.
Proof.
  unfold substring. rewrite skipn_length_app.
  replace (length pre + length n - length pre) with (length n) by lia.
  now rewrite firstn_app, Nat.sub_diag, firstn_all, app_nil_r.
Qed.

End GlobalReplaceLoop.

Section ReplacedStrings.

Variable p : char16 -> bool.
Variable replacement : jsstring.

Lemma char_fails input i :
  match nth_error input i with Some c => p c = false | None => True end ->
  matchAt input (Char p) i = None.
Proof.
  intros H. rewrite matchAt_char.
  destruct (nth_error input i) as [c|]; [now rewrite H|reflexivity].
Qed.

Lemma replaceEach_none n :
  Forall (fun c => p c = false) n -> replaceEach p replacement n = n.
Proof.
  induction 1 as [|c n Hc _ IH]; [reflexivity|].
  unfold replaceEach in *. cbn [flat_map]. now rewrite Hc, IH.
Qed.

Lemma replaceEach_hit n c b :
  Forall (fun c => p c = false) n -> p c = true ->
  replaceEach p replacement (n ++ c :: b)
  = n ++ replacement ++ replaceEach p replacement b.
Proof.
  intros Hn Hc. unfold replaceEach. rewrite flat_map_app.
  fold (replaceEach p replacement n). rewrite (replaceEach_none Hn).
  cbn [flat_map]. now rewrite Hc.
Qed.

Lemma replace_loop_char fuel :
  forall pre suf,
    length suf < fuel ->
    replace_loop (pre ++ suf) (Char p) replacement fuel (length pre) (length pre)
    = replaceEach p replacement suf.
Proof.
  induction fuel as [|fuel IH]; intros pre suf Hf; [lia|].
  cbn [replace_loop].
  replace (length (pre ++ suf) <? length pre) with false
    by (symmetry; apply Nat.ltb_ge; rewrite length_app; lia).
  replace (length (pre ++ suf) - length pre) with (length suf)
    by (rewrite length_app; lia).
  destruct (first_match p suf) as [Hn|(n & c & b & -> & Hn & Hc)].
  - rewrite (@search_no_hit p (Char p) char_fails pre suf (length suf) Hn).
    unfold substringFrom. now rewrite skipn_length_app, replaceEach_none.
  - assert (Hm : matchAt (pre ++ n ++ c :: b) (Char p) (length pre + length n)
                 = Some (S (length pre + length n))).
    { rewrite matchAt_char, app_assoc, <- length_app.
      now rewrite nth_error_at_length, Hc. }
    rewrite (@search_hit p (Char p) char_fails pre n (c :: b) _ (length (n ++ c :: b)) Hn
               ltac:(rewrite length_app; lia) Hm).
    cbn [index endIndex].
    replace (S (length pre + length n) =? length pre + length n) with false
      by (symmetry; apply Nat.eqb_neq; lia).
    replace (length pre <=? length pre + length n) with true
      by (symmetry; apply Nat.leb_le; lia).
    rewrite substring_middle, (replaceEach_hit b Hn Hc).
    f_equal. f_equal.
    pose proof (IH (pre ++ n ++ [c]) b) as E.
    rewrite !length_app in E. cbn [length] in E.
    replace (length pre + (length n + 1)) with (S (length pre + length n)) in E by lia.
    rewrite <- E by (rewrite length_app in Hf; cbn [length] in Hf; lia).
    now rewrite <- !app_assoc.
Qed.

(** Replacing every match of a one-unit class is replacing every code
    unit of the class. *)
Lemma String_replace_all_char s :
  String_replace_all s (Char p) replacement = replaceEach p replacement s.
Proof.
  unfold String_replace_all.
  exact (@replace_loop_char (S (length s)) [] s ltac:(lia)).
Qed.

Lemma plus_fails input i :
  match nth_error input i with Some c => p c = false | None => True end ->
  matchAt input (Plus (Char p)) i = None.
Proof. apply matchAt_plus_fail. Qed.

Lemma squeeze_none n :
  forall s,
    Forall (fun c => p c = false) n ->
    squeeze p replacement false (n ++ s) = n ++ squeeze p replacement false s.
Proof.
  intros s. induction 1 as [|c n Hc _ IH]; [reflexivity|].
  cbn [app squeeze]. now rewrite Hc, IH.
Qed.

Lemma squeeze_in_run a :
  forall rest,
    Forall (fun c => p c = true) a ->
    match rest with [] => True | c :: _ => p c = false end ->
    squeeze p replacement true (a ++ rest) = squeeze p replacement false rest.
Proof.
  intros rest Ha Hr. induction Ha as [|c a Hc _ IH].
  - destruct rest as [|c rest]; [reflexivity|]. cbn [app squeeze]. now rewrite Hr.
  - cbn [app squeeze]. now rewrite Hc.
Qed.

Lemma replace_loop_plus fuel :
  forall pre suf,
    length suf < fuel ->
    replace_loop (pre ++ suf) (Plus (Char p)) replacement fuel (length pre) (length pre)
    = squeeze p replacement false suf.
Proof.
  induction fuel as [|fuel IH]; intros pre suf Hf; [lia|].
  cbn [replace_loop].
  replace (length (pre ++ suf) <? length pre) with false
    by (symmetry; apply Nat.ltb_ge; rewrite length_app; lia).
  replace (length (pre ++ suf) - length pre) with (length suf)
    by (rewrite length_app; lia).
  destruct (first_match p suf) as [Hn|(n & c & b & -> & Hn & Hc)].
  - rewrite (@search_no_hit p (Plus (Char p)) plus_fails pre suf (length suf) Hn).
    unfold substringFrom. rewrite skipn_length_app.
    pose proof (squeeze_none [] Hn) as E. cbn [squeeze] in E.
    rewrite !app_nil_r in E. now rewrite E.
  - destruct (longest_run p b) as (a & rest & -> & Ha & Hr).
    assert (Hm : matchAt (pre ++ n ++ c :: a ++ rest) (Plus (Char p))
                   (length pre + length n)
                 = Some (S (length pre + length n + length a))).
    { rewrite app_assoc, <- length_app. now apply matchAt_plus_run. }
    rewrite (@search_hit p (Plus (Char p)) plus_fails pre n (c :: a ++ rest) _
               (length (n ++ c :: a ++ rest)) Hn ltac:(rewrite length_app; lia) Hm).
    cbn [index endIndex].
    replace (S (length pre + length n + length a) =? length pre + length n) with false
      by (symmetry; apply Nat.eqb_neq; lia).
    replace (length pre <=? length pre + length n) with true
      by (symmetry; apply Nat.leb_le; lia).
    rewrite substring_middle, (squeeze_none _ Hn).
    cbn [squeeze]. rewrite Hc, (squeeze_in_run rest Ha Hr).
    f_equal. f_equal.
    pose proof (IH (pre ++ n ++ c :: a) rest) as E.
    rewrite !length_app in E. cbn [length] in E.
    replace (length pre + (length n + S (length a)))
      with (S (length pre + length n + length a)) in E by lia.
    rewrite <- E
      by (rewrite !length_app in Hf; cbn [length] in Hf; rewrite length_app in Hf; lia).
    replace ((pre ++ n ++ c :: a) ++ rest) with (pre ++ n ++ c :: a ++ rest)
      by (now rewrite <- !app_assoc).
    reflexivity.
Qed.

(** Replacing every match of [p+] is replacing every maximal run. *)
Lemma String_replace_all_plus s :
  String_replace_all s (Plus (Char p)) replacement = squeeze p replacement false s.
Proof.
  unfold String_replace_all.
  exact (@replace_loop_plus (S (length s)) [] s ltac:(lia)).
Qed.

End ReplacedStrings.

(** ** Cleaned addresses and section ids *)

Section CleanedStrings.

Lemma Forall_replaceEach_removed (p : char16 -> bool) s :
  Forall (fun c => p c = false) (replaceEach p [] s).
Proof.
  induction s as [|c s IH]; [constructor|].
  unfold replaceEach in *. cbn [flat_map].
  destruct (p c) eqn:E; [exact IH|]. cbn [app]. now constructor.
Qed.

Lemma angle_free c :
  (N.eqb c 60 || N.eqb c 62) = false <-> c <> 60%N /\ c <> 62%N.
Proof.
  rewrite orb_false_iff, !N.eqb_neq. tauto.
Qed.

Lemma cleanEmailAddress_fixed s :
  Forall (fun c => c <> 60%N /\ c <> 62%N) s -> trimmed s ->
  cleanEmailAddress (Some s) = s.
Proof.
  intros Hs Ht. unfold cleanEmailAddress, angleBracket.
  rewrite String_replace_all_char, replaceEach_none; [exact Ht|].
  apply Forall_forall. intros c Hc. apply angle_free.
  exact (proj1 (Forall_forall _ _) Hs c Hc).
Qed.

Lemma cleanEmailAddress_angle_free email :
  Forall (fun c => c <> 60%N /\ c <> 62%N) (cleanEmailAddress email).
Proof.
  unfold cleanEmailAddress, angleBracket. rewrite String_replace_all_char.
  apply Forall_trim.
  apply Forall_forall. intros c Hc. apply angle_free.
  exact (proj1 (Forall_forall _ _) (Forall_replaceEach_removed _ _) c Hc).
Qed.

Lemma cleanEmailAddress_trimmed email : trimmed (cleanEmailAddress email).
Proof. unfold cleanEmailAddress, trimmed. apply trim_idempotent. Qed.

Lemma hyphen_nonAlnum : nonAlnum 45%N = true.
Proof. reflexivity. Qed.

Lemma alnum_not_hyphen c : nonAlnum c = false -> N.eqb c 45 = false.
Proof.
  intros H. destruct (N.eqb c 45) eqn:E; [|reflexivity].
  apply N.eqb_eq in E. subst c. discriminate H.
Qed.

Lemma squeeze_units inRun s :
  Forall (fun c => idUnit c = true) (squeeze nonAlnum (u16 "-") inRun s).
Proof.
  revert inRun. induction s as [|c s IH]; intros inRun; [constructor|].
  cbn [squeeze]. destruct (nonAlnum c) eqn:E.
  - destruct inRun; [apply IH|]. constructor; [reflexivity|apply IH].
  - constructor; [|apply IH]. unfold nonAlnum in E. apply negb_false_iff in E.
    unfold idUnit. now rewrite E.
Qed.

Lemma squeeze_in_run_head s :
  match squeeze nonAlnum (u16 "-") true s with
  | [] => True
  | c :: _ => N.eqb c 45 = false
  end.
Proof.
  induction s as [|c s IH]; [exact I|].
  cbn [squeeze]. destruct (nonAlnum c) eqn:E; [exact IH|now apply alnum_not_hyphen].
Qed.

Lemma noDoubleHyphen_cons a s :
  (N.eqb a 45 = false \/ match s with [] => True | b :: _ => N.eqb b 45 = false end) ->
  noDoubleHyphen s = true -> noDoubleHyphen (a :: s) = true.
Proof.
  intros H Hs. destruct s as [|b s]; [reflexivity|].
  cbn [noDoubleHyphen] in *. rewrite Hs, andb_true_r.
  destruct H as [-> | ->]; [reflexivity|]. now rewrite andb_false_r.
Qed.

Lemma squeeze_noDoubleHyphen inRun s :
  noDoubleHyphen (squeeze nonAlnum (u16 "-") inRun s) = true.
Proof.
  revert inRun. induction s as [|c s IH]; intros inRun; [reflexivity|].
  cbn [squeeze]. destruct (nonAlnum c) eqn:E.
  - destruct inRun; [apply IH|].
    apply noDoubleHyphen_cons; [right; apply squeeze_in_run_head|apply IH].
  - apply noDoubleHyphen_cons; [left; now apply alnum_not_hyphen|apply IH].
Qed.

Lemma squeeze_fixed s :
  Forall (fun c => idUnit c = true) s -> noDoubleHyphen s = true ->
  squeeze nonAlnum (u16 "-") false s = s
  /\ (match s with [] => True | c :: _ => N.eqb c 45 = false end ->
      squeeze nonAlnum (u16 "-") true s = s).
Proof.
  induction 1 as [|c s Hc Hs IH]; intros Hnd; [now split|].
  assert (Hnd' : noDoubleHyphen s = true).
  { destruct s as [|b s]; [reflexivity|].
    cbn [noDoubleHyphen] in Hnd. now apply andb_prop in Hnd. }
  destruct (IH Hnd') as [IHf IHt].
  cbn [squeeze]. destruct (nonAlnum c) eqn:E.
  - assert (Ec : c = 45%N).
    { unfold idUnit in Hc. unfold nonAlnum in E. apply negb_true_iff in E.
      rewrite E in Hc. cbn [orb] in Hc. now apply N.eqb_eq. }
    subst c. split.
    + cbn [app u16 map list_ascii_of_string]. f_equal. apply IHt.
      destruct s as [|b s]; [exact I|].
      cbn [noDoubleHyphen] in Hnd. apply andb_prop in Hnd. destruct Hnd as [Hnd _].
      apply negb_true_iff in Hnd. exact Hnd.
    + intros Hh. discriminate Hh.
  - split; [now rewrite IHf|intros _; now rewrite IHf].
Qed.

Lemma createSectionId_squeeze toLowerCase title :
  createSectionId toLowerCase title
  = squeeze nonAlnum (u16 "-") false (toLowerCase title).
Proof. unfold createSectionId, nonAlnumRun. apply String_replace_all_plus. Qed.

Lemma asciiToLowerCase_fixed s :
  Forall (fun c => idUnit c = true) s -> asciiToLowerCase s = s.
Proof.
  induction 1 as [|c s Hc _ IH]; [reflexivity|].
  unfold asciiToLowerCase in *. cbn [map]. rewrite IH. f_equal.
  destruct (isAsciiUpper c) eqn:E; [|reflexivity]. exfalso.
  unfold isAsciiUpper in E. apply andb_prop in E. destruct E as [E1 E2].
  apply N.leb_le in E1, E2.
  unfold idUnit, isLowerAlnum, isAsciiLower, isDigit in Hc.
  repeat (apply orb_prop in Hc; destruct Hc as [Hc|Hc]).
  - apply andb_prop in Hc. destruct Hc as [H1 _]. apply N.leb_le in H1. lia.
  - apply andb_prop in Hc. destruct Hc as [_ H2]. apply N.leb_le in H2. lia.
  - apply N.eqb_eq in Hc. lia.
Qed.

End CleanedStrings.

Section MoreFacts.


Lemma render_falsy v : ToBoolean v = false -> convertJSONToHTML v = Normal (JString []).
Proof.
  intros H. destruct v; cbn [convertJSONToHTML]; rewrite H; reflexivity.
Qed.

Lemma join_values_skip xs ys :
  join_values [] (xs ++ JString [] :: ys) = join_values [] (xs ++ ys).
Proof.
  unfold join_values. rewrite !mapM_app. cbn [mapM ToString bind].
  destruct (mapM _ xs) as [px|]; cbn [bind]; [|reflexivity].
  destruct (mapM _ ys) as [py|]; cbn [bind]; [|reflexivity].
  rewrite !join_empty_separator, !concat_app. reflexivity.
Qed.

End MoreFacts.

(** * Further properties of the code *)

(** X1: a node whose type is one of paragraph, bulleted-list,
    numbered-list, list-item, block-quote and code-block renders as its
    opening tag, the rendering of its [children] converted to a string,
    and its closing tag; nothing else of the node is rendered. *)
Theorem wrapper_renders_children props type opening closing c s :
  In (type, (opening, closing)) wrappers ->
  get (u16 "type") props = JString (u16 type) ->
  convertJSONToHTML (get (u16 "children") props) = Normal c ->
  ToString c = Normal s ->
  convertJSONToHTML (JObject props)
  = Normal (JString (u16 opening ++ s ++ u16 closing)).
Proof. exact (@render_wrapper_node props type opening closing c s). Qed.

Lemma wrapper_renders_children_witness :
  convertJSONToHTML
    (JObject [ (u16 "type", JString (u16 "list-item"));
               (u16 "children", JArray [ JString (u16 "a"); JNumber (Finite 7) ]);
               (u16 "extra", JString (u16 "dropped")) ])
  = Normal (JString (u16 "<li>a7</li>")).
Proof.
  apply (@wrapper_renders_children
           [ (u16 "type", JString (u16 "list-item"));
             (u16 "children", JArray [ JString (u16 "a"); JNumber (Finite 7) ]);
             (u16 "extra", JString (u16 "dropped")) ]
           "list-item" "<li>" "</li>" (JString (u16 "a7")) (u16 "a7"));
    [cbn; tauto|reflexivity|reflexivity|reflexivity].
Defined.

(** X2: a node whose type starts with [heading-] renders as an [h] element
    whose level is the text between that prefix and the next hyphen, or
    the end of the type. *)
Theorem heading_renders_level props rest c s :
  get (u16 "type") props = JString (u16 "heading-" ++ rest) ->
  convertJSONToHTML (get (u16 "children") props) = Normal c ->
  ToString c = Normal s ->
  convertJSONToHTML (JObject props)
  = Normal (JString (u16 "<h" ++ upToHyphen rest ++ u16 ">" ++ s
                     ++ u16 "</h" ++ upToHyphen rest ++ u16 ">")).
Proof. exact (@render_heading_node props rest c s). Qed.

Lemma heading_renders_level_witness :
  convertJSONToHTML
    (JObject [ (u16 "type", JString (u16 "heading-3-wide"));
               (u16 "children", JString (u16 "T")) ])
  = Normal (JString (u16 "<h3>T</h3>")).
Proof.
  exact (@heading_renders_level
           [ (u16 "type", JString (u16 "heading-3-wide"));
             (u16 "children", JString (u16 "T")) ]
           (u16 "3-wide") (JString (u16 "T")) (u16 "T") eq_refl eq_refl eq_refl).
Defined.

(** X3: rendering distributes over array concatenation: when two arrays
    render to strings, their concatenation renders to the concatenation
    of the two strings. *)
Theorem render_array_app xs ys s1 s2 :
  convertJSONToHTML (JArray xs) = Normal (JString s1) ->
  convertJSONToHTML (JArray ys) = Normal (JString s2) ->
  convertJSONToHTML (JArray (xs ++ ys)) = Normal (JString (s1 ++ s2)).
Proof.
  rewrite !render_array. unfold join_values. rewrite !mapM_app.
  destruct (mapM convertJSONToHTML xs) as [rx|]; cbn [bind]; [|discriminate].
  destruct (mapM convertJSONToHTML ys) as [ry|]; cbn [bind]; [|discriminate].
  rewrite mapM_app.
  destruct (mapM _ rx) as [px|]; cbn [bind]; [|discriminate].
  destruct (mapM _ ry) as [py|]; cbn [bind]; [|discriminate].
  intros [= <-] [= <-]. now rewrite join_empty_app.
Qed.

Lemma render_array_app_witness :
  convertJSONToHTML
    (JArray ([ JString (u16 "a"); JNull ] ++ [ JBool true; JString (u16 "b") ]))
  = Normal (JString (u16 "a" ++ u16 "trueb")).
Proof.
  apply (@render_array_app [ JString (u16 "a"); JNull ] [ JBool true; JString (u16 "b") ]);
    reflexivity.
Defined.

(** X4: the renderer returns normally on every value in which no object,
    at any depth, has an own [toString] property or a [type] that is
    neither missing, null nor a string; and what it returns can be
    converted to a string. *)
Theorem render_safe_returns v :
  safe v = true ->
  exists r s, convertJSONToHTML v = Normal r /\ ToString r = Normal s.
Proof.
  intros H. destruct (render_safe v H) as (r & Hr & Hs).
  destruct (ToString_safe r Hs) as [s Hts]. now exists r, s.
Qed.

Lemma render_safe_returns_witness :
  exists r s,
    convertJSONToHTML
      (JObject [ (u16 "kind", JNumber (Finite 5));
                 (u16 "items", JArray [ JBool true; JObject [ (u16 "type", JNull) ] ]) ])
    = Normal r /\ ToString r = Normal s.
Proof.
  apply (@render_safe_returns
           (JObject [ (u16 "kind", JNumber (Finite 5));
                      (u16 "items",
                        JArray [ JBool true; JObject [ (u16 "type", JNull) ] ]) ])).
  reflexivity.
Defined.

(** X5: a document of the data model whose texts contain no [<], whose
    addresses contain no [>] and whose headings have a numeric level
    renders normally, to a string in which every tag is one of the
    renderer's and all tags are balanced. *)
Theorem wellFormed_renders_balanced v :
  wellFormed v = true ->
  exists html, convertJSONToHTML v = Normal (JString html) /\ balanced html = true.
Proof.
  intros H. destruct (wellFormed_neutral v H) as (html & Hr & Hn).
  exists html. split; [exact Hr|].
  unfold balanced. specialize (Hn [] []). rewrite app_nil_r in Hn. exact Hn.
Qed.

Lemma wellFormed_renders_balanced_witness :
  wellFormed sampleDocument = true
  /\ exists html,
       convertJSONToHTML sampleDocument = Normal (JString html)
       /\ balanced html = true.
Proof.
  split; [reflexivity|].
  apply (@wellFormed_renders_balanced sampleDocument). reflexivity.
Defined.

(** X6: the content of the document is the body paragraphs with one
    spacer between every two of them, followed, when there are signature
    lines, by one more spacer if there is a body paragraph and by one
    paragraph per signature line; it never starts or ends with a spacer
    and never has two spacers in a row. *)
Theorem document_layout text :
  createAIJsonContent text
  = docNode
      (intersperse spacerNode
         (map paragraphNode (bodyParagraphs text (detectSignature text)))
       ++ match signatureLines (detectSignature text) with
          | [] => []
          | lines =>
              match bodyParagraphs text (detectSignature text) with
              | [] => []
              | _ => [spacerNode]
              end ++ map paragraphNode lines
          end).
Proof.
  unfold createAIJsonContent, buildDocument, bodyParagraphs, docNode.
  cbv zeta.
  set (st := detectSignature text).
  destruct (splitParagraphs (mainContent st)) as [|p ps] eqn:Ep;
    destruct (signatureLines st) as [|l ls] eqn:El;
    cbn [length Nat.eqb andb Nat.ltb Nat.leb app];
    rewrite ?pushSignature_map, ?pushParagraphs_intersperse by reflexivity;
    cbn [app]; rewrite <- ?app_assoc, ?app_nil_r; reflexivity.
Qed.

(** X7: when no sign-off pattern matches, the signature has at most three
    lines, each of them is a line of the text, is shorter than 60 code
    units once trimmed and ends with neither [?] nor a full stop. *)
Theorem fallback_signature_bounded text :
  String_match text signOffPattern = None ->
  length (signatureLines (detectSignature text)) <= 3
  /\ Forall (fun line => In line (String_split text newlines) /\ qualifies line = true)
       (signatureLines (detectSignature text)).
Proof.
  intros Hm. unfold detectSignature, signOffPatterns. cbn [extractSignOff].
  rewrite Hm. unfold fallbackSignature. cbn [signatureLines length Nat.eqb].
  set (allLines := String_split text newlines).
  destruct (1 <? length allLines); [|split; [cbn; lia|constructor]].
  destruct (0 <? length (filter qualifies (slice_last 3 allLines)));
    [|split; [cbn; lia|constructor]].
  cbn [signatureLines]. split.
  - pose proof (filter_length_le qualifies (slice_last 3 allLines)).
    pose proof (slice_last_length 3 allLines). lia.
  - apply Forall_forall. intros line H. apply filter_In in H. destruct H as [Hin Hq].
    split; [exact (@In_slice_last _ 3 allLines line Hin)|exact Hq].
Qed.

Lemma fallback_signature_bounded_witness :
  String_match lostLineText signOffPattern = None
  /\ length (signatureLines (detectSignature lostLineText)) <= 3
  /\ Forall (fun line => In line (String_split lostLineText newlines)
                         /\ qualifies line = true)
       (signatureLines (detectSignature lostLineText)).
Proof.
  split; [vm_compute; reflexivity|].
  apply (@fallback_signature_bounded lostLineText). vm_compute. reflexivity.
Defined.

(** X8: a text without a line feed is never split: the document is one
    paragraph, holding the trimmed text, or the raw text when trimming
    leaves nothing. *)
Theorem single_line_is_one_paragraph text :
  ~ In 10%N text ->
  createAIJsonContent text
  = docNode [ paragraphNode (if nonEmpty (trim text) then trim text else text) ].
Proof.
  intros Hno.
  assert (Hd : detectSignature text = initial text).
  { unfold detectSignature, signOffPatterns, String_match. cbn [extractSignOff].
    unfold String_match.
    rewrite (@search_none text signOffPattern
               (@no_match_without_line_feed text signOffPattern
                  (@signOffPattern_needs_line_feed text) Hno)).
    unfold fallbackSignature. cbn [signatureLines length Nat.eqb].
    rewrite (@String_split_none text newlines
               (@no_match_without_line_feed text newlines
                  (@newlines_needs_line_feed text) Hno)).
    reflexivity. }
  unfold createAIJsonContent. rewrite Hd.
  unfold buildDocument, initial, splitParagraphs. cbn [mainContent signatureLines].
  rewrite (@String_split_none text blankLine
             (@no_match_without_line_feed text blankLine
                (@blankLine_needs_line_feed text) Hno)).
  cbn [map filter]. destruct (nonEmpty (trim text)); reflexivity.
Qed.

Lemma single_line_is_one_paragraph_witness :
  createAIJsonContent (u16 "  Thanks, Bob  ")
  = docNode [ paragraphNode (u16 "Thanks, Bob") ].
Proof.
  apply (@single_line_is_one_paragraph (u16 "  Thanks, Bob  ")).
  vm_compute. intros H. repeat (destruct H as [H|H]; [discriminate H|]). exact H.
Defined.

(** X9: every paragraph split off the main content is non-empty and has
    no white space at either end. *)
Theorem paragraphs_are_trimmed mainContent :
  Forall (fun p => p <> [] /\ trimmed p) (splitParagraphs mainContent).
Proof.
  unfold splitParagraphs. apply Forall_forall. intros p H.
  apply filter_In in H. destruct H as [Hin Hne].
  apply in_map_iff in Hin. destruct Hin as (x & <- & _).
  split.
  - intros E. rewrite E in Hne. discriminate Hne.
  - apply trim_idempotent.
Qed.

(** X10: for a filter written [prefix:value], where the prefix has no
    colon, [extractFilterValue] returns the value, colons of the value
    included. *)
Theorem extractFilterValue_after_first_colon prefix value :
  ~ In 58%N prefix ->
  extractFilterValue (prefix ++ u16 ":" ++ value) = value.
Proof.
  intros H. unfold extractFilterValue.
  assert (Hinc : includes (prefix ++ u16 ":" ++ value) (u16 ":") = true)
    by (apply (@includes_unit_true 58%N); apply in_or_app; right; now left).
  assert (Hidx : indexOf (prefix ++ u16 ":" ++ value) (u16 ":")
                 = Z.of_nat (0 + length prefix))
    by (exact (@indexOf_from_unit 58%N prefix value H 0)).
  assert (Hne : nonEmpty (prefix ++ u16 ":" ++ value) = true)
    by (unfold nonEmpty; rewrite length_app; cbn [length app u16 map list_ascii_of_string];
        apply negb_true_iff, Nat.eqb_neq; lia).
  rewrite Hinc, Hidx, Hne. cbn [negb orb].
  replace (Z.to_nat (Z.of_nat (0 + length prefix) + 1))
    with (length (prefix ++ u16 ":"))
    by (rewrite length_app; change (length (u16 ":")) with 1; lia).
  unfold substringFrom. rewrite app_assoc, skipn_length_app.
  destruct value; reflexivity.
Qed.

Lemma extractFilterValue_after_first_colon_witness :
  extractFilterValue (u16 "from" ++ u16 ":" ++ u16 "a:b") = u16 "a:b".
Proof.
  apply (@extractFilterValue_after_first_colon (u16 "from") (u16 "a:b")).
  vm_compute. intros H. repeat (destruct H as [H|H]; [discriminate H|]). exact H.
Defined.

(** X11: a filter without a colon has no value: the result is the empty
    string. *)
Theorem extractFilterValue_without_colon filter :
  ~ In 58%N filter -> extractFilterValue filter = [].
Proof.
  intros H. unfold extractFilterValue.
  assert (Hinc : includes filter (u16 ":") = false)
    by (exact (@includes_unit_false 58%N filter H)).
  rewrite Hinc. cbn [negb]. now rewrite orb_true_r.
Qed.

Lemma extractFilterValue_without_colon_witness :
  extractFilterValue (u16 "is unread") = [].
Proof.
  apply (@extractFilterValue_without_colon (u16 "is unread")).
  vm_compute. intros H. repeat (destruct H as [H|H]; [discriminate H|]). exact H.
Defined.

(** X12: for a [maxLength] of at least 5, the result of
    [truncateFileName] is at most three code units longer than
    [maxLength]; with the default of 15 it has at most 18. *)
Theorem truncateFileName_length name maxLength :
  (5 <= maxLength)%Z ->
  (Z.of_nat (length (truncateFileName name (Some maxLength))) <= maxLength + 3)%Z.
Proof.
  intros Hm. unfold truncateFileName.
  destruct (Z.of_nat (length name) <=? maxLength)%Z eqn:Efit.
  - apply Z.leb_le in Efit. lia.
  - destruct (negb (lastIndexOf name (u16 ".") =? -1)%Z
              && (Z.of_nat (length name) - lastIndexOf name (u16 ".") <=? 5)%Z) eqn:Eext.
    + apply andb_prop in Eext. destruct Eext as [Hfound Hshort].
      apply negb_true_iff, Z.eqb_neq in Hfound. apply Z.leb_le in Hshort.
      pose proof (lastIndexOf_from_bounds name (u16 ".") (length name)) as Hb.
      fold (lastIndexOf name (u16 ".")) in Hb.
      pose proof (@slice_prefix_length name (maxLength - 5) ltac:(lia)) as Hs.
      rewrite !length_app. unfold sliceFrom, relativeIndex.
      replace (lastIndexOf name (u16 ".") <? 0)%Z with false
        by (symmetry; apply Z.ltb_ge; lia).
      rewrite length_skipn. change (length (u16 "...")) with 3. lia.
    + pose proof (@slice_prefix_length name maxLength ltac:(lia)) as Hs.
      rewrite length_app. change (length (u16 "...")) with 3. lia.
Qed.

Lemma truncateFileName_length_witness :
  (Z.of_nat (length (truncateFileName (u16 "quarterly-report-final.xlsx") None)) <= 15 + 3)%Z.
Proof.
  apply (@truncateFileName_length (u16 "quarterly-report-final.xlsx") 15%Z). lia.
Defined.

(** X13: when the last full stop of the name is among its last five code
    units, the result of [truncateFileName] ends with the name's
    extension, from that full stop on, whatever [maxLength] is. *)
Theorem truncateFileName_keeps_short_extension name maxLength i :
  lastIndexOf name (u16 ".") = Z.of_nat i ->
  length name - i <= 5 ->
  exists stem, truncateFileName name maxLength = stem ++ skipn i name.
Proof.
  intros Hi Hshort.
  pose proof (lastIndexOf_from_bounds name (u16 ".") (length name)) as Hb.
  fold (lastIndexOf name (u16 ".")) in Hb. rewrite Hi in Hb.
  unfold truncateFileName.
  destruct (Z.of_nat (length name) <=? _)%Z.
  - exists (firstn i name). now rewrite firstn_skipn.
  - rewrite Hi.
    replace (negb (Z.of_nat i =? -1)%Z) with true
      by (symmetry; apply negb_true_iff, Z.eqb_neq; lia).
    replace (Z.of_nat (length name) - Z.of_nat i <=? 5)%Z with true
      by (symmetry; apply Z.leb_le; lia).
    cbn [andb]. unfold sliceFrom, relativeIndex.
    replace (Z.of_nat i <? 0)%Z with false by (symmetry; apply Z.ltb_ge; lia).
    rewrite Nat2Z.id, Nat.min_l by lia.
    eexists. rewrite app_assoc. reflexivity.
Qed.

Lemma truncateFileName_keeps_short_extension_witness :
  exists stem,
    truncateFileName (u16 "quarterly-report-final.xlsx") None
    = stem ++ u16 ".xlsx".
Proof.
  apply (@truncateFileName_keeps_short_extension
           (u16 "quarterly-report-final.xlsx") None 22); [reflexivity|cbn; lia].
Defined.

(** X14: [getFileIcon] returns the empty string exactly for the MIME
    types that contain [image]; every other type gets an icon. *)
Theorem getFileIcon_empty_iff_image mimeType :
  getFileIcon mimeType = [] <-> includes mimeType (u16 "image") = true.
Proof.
  unfold getFileIcon.
  destruct (JsString.eqb mimeType (u16 "application/pdf")) eqn:E1.
  { apply eqb_eq in E1. subst mimeType. split; intros H; vm_compute in H; discriminate H. }
  destruct (JsString.eqb mimeType
              (u16 "application/vnd.openxmlformats-officedocument.spreadsheetml.sheet"))
    eqn:E2.
  { apply eqb_eq in E2. subst mimeType. split; intros H; vm_compute in H; discriminate H. }
  destruct (JsString.eqb mimeType
              (u16 "application/vnd.openxmlformats-officedocument.wordprocessingml.document"))
    eqn:E3.
  { apply eqb_eq in E3. subst mimeType. split; intros H; vm_compute in H; discriminate H. }
  destruct (includes mimeType (u16 "image")); split; intros H; try reflexivity;
    vm_compute in H; discriminate H.
Qed.

(** X15: whatever the input, the cleaned address contains neither [<] nor
    [>] and has no white space at either end. *)
Theorem cleanEmailAddress_is_clean email :
  Forall (fun c => c <> 60%N /\ c <> 62%N) (cleanEmailAddress email)
  /\ trimmed (cleanEmailAddress email).
Proof.
  split; [apply cleanEmailAddress_angle_free|apply cleanEmailAddress_trimmed].
Qed.

(** X16: an address without angle brackets and without white space at its
    ends is returned as it is. *)
Theorem cleanEmailAddress_keeps_clean_address s :
  Forall (fun c => c <> 60%N /\ c <> 62%N) s -> trimmed s ->
  cleanEmailAddress (Some s) = s.
Proof. apply cleanEmailAddress_fixed. Qed.

Lemma cleanEmailAddress_keeps_clean_address_witness :
  cleanEmailAddress (Some (u16 "jane doe@example.com")) = u16 "jane doe@example.com".
Proof.
  apply (@cleanEmailAddress_keeps_clean_address (u16 "jane doe@example.com"));
    [|reflexivity].
  vm_compute. repeat (constructor; [split; intro H; discriminate H|]). constructor.
Defined.

(** X17: cleaning is idempotent: cleaning a cleaned address changes
    nothing. *)
Theorem cleanEmailAddress_idempotent email :
  cleanEmailAddress (Some (cleanEmailAddress email)) = cleanEmailAddress email.
Proof.
  apply cleanEmailAddress_fixed;
    [apply cleanEmailAddress_angle_free|apply cleanEmailAddress_trimmed].
Qed.

(** X18: whatever [toLowerCase] returns, a section id consists of the
    code units a-z, 0-9 and hyphen only, and has no two hyphens in a
    row. *)
Theorem createSectionId_shape toLowerCase title :
  Forall (fun c => idUnit c = true) (createSectionId toLowerCase title)
  /\ noDoubleHyphen (createSectionId toLowerCase title) = true.
Proof.
  rewrite createSectionId_squeeze.
  split; [apply squeeze_units|apply squeeze_noDoubleHyphen].
Qed.

(** X19: [createSectionId] is idempotent, given that [toLowerCase] leaves
    strings of a-z, 0-9 and hyphens as they are. *)
Theorem createSectionId_idempotent toLowerCase title :
  (forall s, Forall (fun c => idUnit c = true) s -> toLowerCase s = s) ->
  createSectionId toLowerCase (createSectionId toLowerCase title)
  = createSectionId toLowerCase title.
Proof.
  intros Hlower.
  rewrite (createSectionId_squeeze toLowerCase (createSectionId toLowerCase title)).
  rewrite createSectionId_squeeze.
  rewrite Hlower by apply squeeze_units.
  apply squeeze_fixed; [apply squeeze_units|apply squeeze_noDoubleHyphen].
Qed.

Lemma createSectionId_idempotent_witness :
  createSectionId asciiToLowerCase (u16 "Hello, World!! 42--x") = u16 "hello-world-42-x"
  /\ createSectionId asciiToLowerCase
       (createSectionId asciiToLowerCase (u16 "Hello, World!! 42--x"))
     = createSectionId asciiToLowerCase (u16 "Hello, World!! 42--x").
Proof.
  split; [vm_compute; reflexivity|].
  apply (@createSectionId_idempotent asciiToLowerCase (u16 "Hello, World!! 42--x")).
  exact asciiToLowerCase_fixed.
Defined.



(** X21: a falsy item of an array ([null], [undefined], [false], [0],
    [NaN] or the empty string) contributes nothing: the array renders as
    it does without the item. *)
Theorem render_array_skips_falsy xs v ys :
  ToBoolean v = false ->
  convertJSONToHTML (JArray (xs ++ v :: ys)) = convertJSONToHTML (JArray (xs ++ ys)).
Proof.
  intros Hv. rewrite !render_array, !mapM_app. cbn [mapM].
  rewrite (render_falsy v Hv). cbn [bind].
  destruct (mapM convertJSONToHTML xs) as [rx|]; cbn [bind]; [|reflexivity].
  destruct (mapM convertJSONToHTML ys) as [ry|]; cbn [bind]; [|reflexivity].
  now rewrite join_values_skip.
Qed.

Lemma render_array_skips_falsy_witness :
  convertJSONToHTML (JArray ([ JString (u16 "a") ] ++ JNumber (Finite 0) :: [ JBool true ]))
  = Normal (JString (u16 "atrue")).
Proof.
  rewrite (@render_array_skips_falsy [ JString (u16 "a") ] (JNumber (Finite 0))
             [ JBool true ]); reflexivity.
Defined.
